(** * Wappylyzer: the rule-matching engine of [wappylyzer.py]

    A shallow embedding of [src/wappylyzer.py] and the properties of its
    specification.

    Layout:
    - [PyStr]: the [str] methods the program calls ([lower], [split],
      [replace], [join]);
    - [Re]: a model of the fragment of Python's [re] module that the
      program's patterns need (the library is not part of the repository);
    - the data model (rule corpus, compiled patterns, responses);
    - the detection pipeline, in a state-and-exception monad over the
      list [self.__detected_apps];
    - the theorems.

    Python strings are modelled as [string]: sequences of 8-bit
    characters, read as the code points U+0000..U+00FF. *)

From Stdlib Require Import String Ascii List Bool Arith Lia.
Import ListNotations.
Local Open Scope string_scope.
Local Open Scope list_scope.

(* ===================================================================== *)
(** ** Python [str] methods *)
(* ===================================================================== *)

Module PyStr.

Definition in_range (lo hi c : ascii) : bool :=
  Nat.leb (nat_of_ascii lo) (nat_of_ascii c) && Nat.leb (nat_of_ascii c) (nat_of_ascii hi).

Definition code_in (lo hi : nat) (c : ascii) : bool :=
  Nat.leb lo (nat_of_ascii c) && Nat.leb (nat_of_ascii c) hi.

(** The upper-case letters whose lower case is 32 code points up: [A-Z]
    and U+00C0..U+00DE without the multiplication sign. *)
Definition is_upper (c : ascii) : bool :=
  in_range "A" "Z" c || (code_in 192 222 c && negb (Nat.eqb (nat_of_ascii c) 215)).

Definition has_upper (c : ascii) : bool :=
  in_range "a" "z" c || (code_in 224 254 c && negb (Nat.eqb (nat_of_ascii c) 247)).

Definition lower_ascii (c : ascii) : ascii :=
  if is_upper c then ascii_of_nat (nat_of_ascii c + 32) else c.

Definition upper_ascii (c : ascii) : ascii :=
  if has_upper c then ascii_of_nat (nat_of_ascii c - 32) else c.

(** [s.lower()] *)
Fixpoint lower (s : string) : string :=
  match s with
  | EmptyString => EmptyString
  | String c s' => String (lower_ascii c) (lower s')
  end.

(** Left-to-right scan shared by [split] and [replace]: [skip] counts the
    characters of an occurrence of [sep] that are still to be dropped. *)
Fixpoint split_go (sep s cur : string) (skip : nat) : list string :=
  match s with
  | EmptyString => [cur]
  | String c s' =>
      match skip with
      | S k => split_go sep s' cur k
      | O =>
          if prefix sep s
          then cur :: split_go sep s' EmptyString (String.length sep - 1)
          else split_go sep s' (cur ++ String c EmptyString) 0
      end
  end.

(** [s.split(sep)] for a non-empty separator. *)
Definition split (sep s : string) : list string := split_go sep s EmptyString 0.

(** [sep.join(l)] *)
Fixpoint join (sep : string) (l : list string) : string :=
  match l with
  | [] => EmptyString
  | [x] => x
  | x :: rest => x ++ sep ++ join sep rest
  end.

(** [s.replace(old, new)] for a non-empty [old]: the occurrences of [old]
    are found left to right without overlap, exactly the pieces [split]
    separates. *)
Definition replace (old new s : string) : string := join new (split old s).

End PyStr.

(* ===================================================================== *)
(** ** A model of Python's [re] *)
(* ===================================================================== *)

(** The fragment: literals, [.], [^], [$], escapes of non-alphanumeric
    characters, [\n \t \r], the categories [\d \D \w \W \s \S], character
    sets with ranges and negation, capturing groups, [(?:...)],
    alternation, and the quantifiers [* + ?] with their lazy forms.
    The flags are [IGNORECASE] and [DOTALL].  A pattern that uses
    anything else compiles to [Opaque]: the model does not say what it
    matches. *)

Module Re.
Import PyStr.

Inductive citem : Type :=
| CChar (c : ascii)
| CRange (lo hi : ascii)
| CDigit (neg : bool)
| CWord (neg : bool)
| CSpace (neg : bool).

Inductive regex : Type :=
| Eps
| Lit (c : ascii)
| Any
| Cls (neg : bool) (items : list citem)
| Bol
| Eol
| Seq (r1 r2 : regex)
| Alt (r1 r2 : regex)
| Star (greedy : bool) (r : regex)
| Grp (n : nat) (r : regex).

Record flags : Type := { ignorecase : bool; dotall : bool }.

(** *** Matching *)

Definition is_digit (c : ascii) : bool := in_range "0" "9" c.

(** [\w]: the alphanumeric characters and the underscore. *)
Definition is_word (c : ascii) : bool :=
  in_range "a" "z" c || in_range "A" "Z" c || is_digit c || Ascii.eqb c "_"
  || existsb (Nat.eqb (nat_of_ascii c)) [170; 178; 179; 181; 185; 186; 188; 189; 190]
  || code_in 192 214 c || code_in 216 246 c || code_in 248 255 c.

(** [\s] *)
Definition is_space (c : ascii) : bool :=
  Ascii.eqb c " " || code_in 9 13 c || code_in 28 31 c
  || existsb (Nat.eqb (nat_of_ascii c)) [133; 160].

Definition newline : ascii := ascii_of_nat 10.

Definition chr_eq (ic : bool) (a b : ascii) : bool :=
  if ic then Ascii.eqb (lower_ascii a) (lower_ascii b) else Ascii.eqb a b.

Definition in_item (ic : bool) (it : citem) (c : ascii) : bool :=
  match it with
  | CChar a => chr_eq ic a c
  | CRange lo hi =>
      if ic then in_range lo hi (lower_ascii c) || in_range lo hi (upper_ascii c)
      else in_range lo hi c
  | CDigit neg => xorb neg (is_digit c)
  | CWord neg => xorb neg (is_word c)
  | CSpace neg => xorb neg (is_space c)
  end.

Definition in_class (ic neg : bool) (items : list citem) (c : ascii) : bool :=
  xorb neg (existsb (fun it => in_item ic it c) items).

(** Captures: entry [i] is the text of group [i+1], [None] while the group
    has not taken part in the match. *)
Definition caps : Type := list (option string).

Fixpoint set_cap (n : nat) (v : string) (c : caps) : caps :=
  match n, c with
  | O, _ :: c' => Some v :: c'
  | S k, x :: c' => x :: set_cap k v c'
  | O, [] => [Some v]
  | S k, [] => None :: set_cap k v []
  end.

(** The backtracking matcher, in continuation-passing style: [pos] is the
    offset of [s] in the subject.  A repetition does not start another
    iteration at the offset where the previous one started, so it
    terminates on bodies that match the empty string.  The parser below
    only builds repetitions of bodies that consume a character, for
    which the fuel [length s + 2] is not used up. *)
Section Matcher.
Variable fl : flags.

Definition cont : Type := nat -> string -> caps -> option caps.

Fixpoint m (r : regex) (pos : nat) (s : string) (c : caps) (k : cont)
  : option caps :=
  match r with
  | Eps => k pos s c
  | Lit a =>
      match s with
      | String b s' => if chr_eq (ignorecase fl) a b then k (S pos) s' c else None
      | EmptyString => None
      end
  | Any =>
      match s with
      | String b s' =>
          if dotall fl || negb (Ascii.eqb b newline) then k (S pos) s' c else None
      | EmptyString => None
      end
  | Cls neg items =>
      match s with
      | String b s' =>
          if in_class (ignorecase fl) neg items b then k (S pos) s' c else None
      | EmptyString => None
      end
  | Bol => if Nat.eqb pos 0 then k pos s c else None
  | Eol =>
      match s with
      | EmptyString => k pos s c
      | String b EmptyString => if Ascii.eqb b newline then k pos s c else None
      | _ => None
      end
  | Seq r1 r2 => m r1 pos s c (fun pos' s' c' => m r2 pos' s' c' k)
  | Alt r1 r2 =>
      match m r1 pos s c k with
      | Some c' => Some c'
      | None => m r2 pos s c k
      end
  | Star greedy r1 =>
      (fix loop (fuel : nat) (last : option nat) (pos : nat) (s : string)
           (c : caps) {struct fuel} : option caps :=
         match fuel with
         | O => k pos s c
         | S f =>
             let again :=
               match last with
               | Some p => negb (Nat.eqb p pos)
               | None => true
               end in
             let iter (_ : unit) :=
               if again
               then m r1 pos s c (fun pos' s' c' => loop f (Some pos) pos' s' c')
               else None in
             if greedy
             then match iter tt with
                  | Some c' => Some c'
                  | None => k pos s c
                  end
             else match k pos s c with
                  | Some c' => Some c'
                  | None => iter tt
                  end
         end) (S (S (String.length s))) None pos s c
  | Grp n r1 =>
      m r1 pos s c
        (fun pos' s' c' => k pos' s' (set_cap n (substring 0 (pos' - pos) s) c'))
  end.

Definition accept : cont := fun _ _ c => Some c.

(** [Pattern.match]: the pattern is tried at the start of the subject. *)
Definition match_at_start (r : regex) (ngroups : nat) (s : string) : option caps :=
  m r 0 s (repeat None ngroups) accept.

(** [Pattern.search]: the first offset at which the pattern matches. *)
Fixpoint search_from (r : regex) (ngroups : nat) (pos : nat) (s : string)
  : option caps :=
  match m r pos s (repeat None ngroups) accept with
  | Some c => Some c
  | None =>
      match s with
      | EmptyString => None
      | String _ s' => search_from r ngroups (S pos) s'
      end
  end.
End Matcher.

(** *** Parsing the pattern source *)

(** [PError] is [re.error]; [PUnsupported] is a construct outside the
    fragment. *)
Inductive parsed (A : Type) : Type :=
| POk (a : A)
| PError
| PUnsupported.
Arguments POk {A} a.
Arguments PError {A}.
Arguments PUnsupported {A}.

Definition is_alnum (c : ascii) : bool :=
  in_range "a" "z" c || in_range "A" "Z" c || is_digit c.

Definition tab : ascii := ascii_of_nat 9.
Definition cr : ascii := ascii_of_nat 13.

(** The category or character an escape [\c] denotes, [None] for the
    escapes outside the fragment. *)
Definition escape_item (c : ascii) : option citem :=
  if Ascii.eqb c "d" then Some (CDigit false)
  else if Ascii.eqb c "D" then Some (CDigit true)
  else if Ascii.eqb c "w" then Some (CWord false)
  else if Ascii.eqb c "W" then Some (CWord true)
  else if Ascii.eqb c "s" then Some (CSpace false)
  else if Ascii.eqb c "S" then Some (CSpace true)
  else if Ascii.eqb c "n" then Some (CChar newline)
  else if Ascii.eqb c "t" then Some (CChar tab)
  else if Ascii.eqb c "r" then Some (CChar cr)
  else if is_alnum c then None
  else Some (CChar c).

Definition item_regex (it : citem) : regex :=
  match it with
  | CChar c => Lit c
  | _ => Cls false [it]
  end.

(** One member of a character set: a character or an escape.  The result
    carries the rest of the source. *)
Definition parse_member (c : ascii) (rest : string) : parsed (citem * string) :=
  if Ascii.eqb c "\" then
    match rest with
    | EmptyString => PError
    | String e rest' =>
        match escape_item e with
        | Some it => POk (it, rest')
        | None => PUnsupported
        end
    end
  else POk (CChar c, rest).

Definition range_of (a b : citem) : parsed citem :=
  match a, b with
  | CChar lo, CChar hi =>
      if Nat.ltb (nat_of_ascii hi) (nat_of_ascii lo) then PError else POk (CRange lo hi)
  | _, _ => PError
  end.

(** The body of a character set, after [[] or [[^]: a []] closes the set
    unless it comes first. *)
Fixpoint parse_set (fuel : nat) (s : string) (acc : list citem)
  : parsed (list citem * string) :=
  match fuel with
  | O => PUnsupported
  | S f =>
      match s with
      | EmptyString => PError
      | String c s1 =>
          if Ascii.eqb c "]" && negb (Nat.eqb (List.length acc) 0) then POk (acc, s1)
          else
            match parse_member c s1 with
            | PError => PError
            | PUnsupported => PUnsupported
            | POk (code1, s2) =>
                match s2 with
                | String "-" s3 =>
                    match s3 with
                    | EmptyString => PError
                    | String "]" s4 => POk (acc ++ [code1; CChar "-"], s4)
                    | String d s4 =>
                        match parse_member d s4 with
                        | PError => PError
                        | PUnsupported => PUnsupported
                        | POk (code2, s5) =>
                            match range_of code1 code2 with
                            | POk it => parse_set f s5 (acc ++ [it])
                            | PError => PError
                            | PUnsupported => PUnsupported
                            end
                        end
                    end
                | _ => parse_set f s2 (acc ++ [code1])
                end
            end
      end
  end.

(** Can the expression match the empty string?  A repetition of such a
    body is left outside the fragment. *)
Fixpoint nullable (r : regex) : bool :=
  match r with
  | Eps | Bol | Eol | Star _ _ => true
  | Lit _ | Any | Cls _ _ => false
  | Seq r1 r2 => nullable r1 && nullable r2
  | Alt r1 r2 => nullable r1 || nullable r2
  | Grp _ r1 => nullable r1
  end.

Definition is_anchor (r : regex) : bool :=
  match r with
  | Bol | Eol => true
  | _ => false
  end.

Definition is_repeat_char (c : ascii) : bool :=
  Ascii.eqb c "*" || Ascii.eqb c "+" || Ascii.eqb c "?".

Definition repeat_of (q : ascii) (greedy : bool) (r : regex) : regex :=
  if Ascii.eqb q "*" then Star greedy r
  else if Ascii.eqb q "+" then Seq r (Star greedy r)
  else if greedy then Alt r Eps else Alt Eps r.

(** The quantifier that may follow an item. *)
Definition parse_quant (atom : regex) (s : string) : parsed (regex * string) :=
  match s with
  | String "{" _ => PUnsupported
  | String q s1 =>
      if is_repeat_char q then
        if is_anchor atom then PError
        else
          let '(greedy, s2) :=
            match s1 with
            | String "?" s2 => (false, s2)
            | _ => (true, s1)
            end in
          match s2 with
          | String "+" _ => PUnsupported
          | String "{" _ => PUnsupported
          | String "*" _ => PError
          | String "?" _ => PError
          | _ =>
              if Ascii.eqb q "?" || negb (nullable atom)
              then POk (repeat_of q greedy atom, s2)
              else PUnsupported
          end
      else POk (atom, s)
  | EmptyString => POk (atom, s)
  end.

Fixpoint alts (l : list regex) : regex :=
  match l with
  | [] => Eps
  | [r] => r
  | r :: rest => Alt r (alts rest)
  end.

(** The branches of an alternation, up to the end of the source or the
    [)] that closes the enclosing group; [gi] counts the capturing groups
    opened so far.  The head of the result is the branch being read. *)
Fixpoint parse_re (fuel : nat) (gi : nat) (s : string)
  : parsed (list regex * nat * string) :=
  match fuel with
  | O => PUnsupported
  | S f =>
      let continue (item : regex) (gi' : nat) (rest : string) :=
        match parse_quant item rest with
        | PError => PError
        | PUnsupported => PUnsupported
        | POk (item', rest') =>
            match parse_re f gi' rest' with
            | POk (branch :: others, gi'', rest'') =>
                POk (Seq item' branch :: others, gi'', rest'')
            | POk ([], _, _) => PUnsupported
            | PError => PError
            | PUnsupported => PUnsupported
            end
        end in
      match s with
      | EmptyString => POk ([Eps], gi, s)
      | String ")" _ => POk ([Eps], gi, s)
      | String "|" s1 =>
          match parse_re f gi s1 with
          | POk (branches, gi', rest) => POk (Eps :: branches, gi', rest)
          | PError => PError
          | PUnsupported => PUnsupported
          end
      | String "(" s1 =>
          let '(capture, s2, unsupported) :=
            match s1 with
            | String "?" (String ":" s2) => (false, s2, false)
            | String "?" _ => (false, s1, true)
            | _ => (true, s1, false)
            end in
          if unsupported then PUnsupported
          else
            match parse_re f (if capture then S gi else gi) s2 with
            | POk (branches, gi', String ")" s3) =>
                continue (if capture then Grp gi (alts branches) else alts branches)
                         gi' s3
            | POk (_, _, _) => PError
            | PError => PError
            | PUnsupported => PUnsupported
            end
      | String "[" s1 =>
          let '(neg, s2) :=
            match s1 with
            | String "^" s2 => (true, s2)
            | _ => (false, s1)
            end in
          match parse_set (S (String.length s2)) s2 [] with
          | POk (items, s3) => continue (Cls neg items) gi s3
          | PError => PError
          | PUnsupported => PUnsupported
          end
      | String "\" s1 =>
          match s1 with
          | EmptyString => PError
          | String e s2 =>
              match escape_item e with
              | Some it => continue (item_regex it) gi s2
              | None => PUnsupported
              end
          end
      | String "." s1 => continue Any gi s1
      | String "^" s1 => continue Bol gi s1
      | String "$" s1 => continue Eol gi s1
      | String "{" _ => PUnsupported
      | String c s1 =>
          if is_repeat_char c then PError else continue (Lit c) gi s1
      end
  end.

(** The whole source: a [)] left over is unbalanced. *)
Definition parse (src : string) : parsed (regex * nat) :=
  match parse_re (S (String.length src)) 0 src with
  | POk (branches, n, EmptyString) => POk (alts branches, n)
  | POk (_, _, _) => PError
  | PError => PError
  | PUnsupported => PUnsupported
  end.

(** *** Pattern objects *)

Inductive pattern : Type :=
| Compiled (fl : flags) (ngroups : nat) (r : regex)
| Opaque (fl : flags) (src : string).

(** [re.compile(src, flags)]; [None] is [re.error]. *)
Definition compile (src : string) (fl : flags) : option pattern :=
  match parse src with
  | POk (r, n) => Some (Compiled fl n r)
  | PError => None
  | PUnsupported => Some (Opaque fl src)
  end.

(** What a match attempt answers: [Matched groups] is a match object with
    [groups()] = [groups]; [NoMatch] is [None]; [Unknown] is the answer
    of an [Opaque] pattern. *)
Inductive answer : Type :=
| Matched (groups : caps)
| NoMatch
| Unknown.

Definition answer_of (o : option caps) : answer :=
  match o with
  | Some g => Matched g
  | None => NoMatch
  end.

Definition search (p : pattern) (s : string) : answer :=
  match p with
  | Compiled fl n r => answer_of (search_from fl r n 0 s)
  | Opaque _ _ => Unknown
  end.

Definition match_ (p : pattern) (s : string) : answer :=
  match p with
  | Compiled fl n r => answer_of (match_at_start fl r n s)
  | Opaque _ _ => Unknown
  end.

End Re.

(* ===================================================================== *)
(** ** Data model *)
(* ===================================================================== *)

Import PyStr.

(** *** Python dicts with string keys, in insertion order *)

Section Dict.
Context {V : Type}.

Fixpoint dict_get (k : string) (d : list (string * V)) : option V :=
  match d with
  | [] => None
  | (k', v) :: d' => if String.eqb k k' then Some v else dict_get k d'
  end.

(** [d[k] = v]: an existing key keeps its place. *)
Fixpoint dict_set (k : string) (v : V) (d : list (string * V)) : list (string * V) :=
  match d with
  | [] => [(k, v)]
  | (k', v') :: d' =>
      if String.eqb k k' then (k, v) :: d' else (k', v') :: dict_set k v d'
  end.

Definition dict_has (k : string) (d : list (string * V)) : bool :=
  match dict_get k d with
  | Some _ => true
  | None => false
  end.
End Dict.

(** *** The rule corpus as [json.loads] returns it *)

(** A pattern value: one pattern string or a list of them. *)
Inductive jval : Type :=
| VStr (s : string)
| VList (l : list string).

(** The value of a signal-kind key of a rule: [null], a string, a list of
    strings, or an object from sub-keys to pattern values. *)
Inductive jpat : Type :=
| JNull
| JStr (s : string)
| JList (l : list string)
| JDict (d : list (string * jval)).

Record raw_app : Type := {
  raw_implies : option jval;
  raw_fields : list (string * jpat)
}.

(** A rule after [parse_app]. *)
Record app : Type := {
  name : string;
  implies : list string;
  fields : list (string * jpat)
}.

(** *** Compiled patterns *)

(** The values of the [attrs] dict of a pattern: the compiled regex under
    ['regex'], strings under every other key. *)
Inductive attr_val : Type :=
| AStr (s : string)
| ARegex (r : Re.pattern).

Definition attrs : Type := list (string * attr_val).

(** What [parse_patterns] returns: a list of patterns or a dict from
    sub-keys to lists of patterns. *)
Inductive group : Type :=
| GList (l : list attrs)
| GDict (d : list (string * list attrs)).

(** *** Responses and parsed documents *)

Record meta_tag : Type := {
  attr_name : option string;
  attr_property : option string;
  attr_content : option string
}.

(** What the program reads of a parsed document: whether [find('html')]
    finds an element, the [src] attribute of each [script] element and
    the [meta] elements. *)
Record document : Type := {
  has_html : bool;
  script_srcs : list (option string);
  metas : list meta_tag
}.

Record response : Type := {
  resp_url : string;
  resp_request_url : string;
  resp_text : string;
  resp_headers : list (string * string);
  resp_cookies : list (string * string)
}.

(* ===================================================================== *)
(** ** Exceptions and state *)
(* ===================================================================== *)

Inductive exn : Type :=
| TypeError
| AttributeError
| KeyError
| ValueError
| RequestException.

(** [Unmodelled]: the run consulted a pattern outside the [Re] fragment. *)
Inductive outcome (A : Type) : Type :=
| Ok (a : A)
| Raise (e : exn)
| Unmodelled.
Arguments Ok {A} a.
Arguments Raise {A} e.
Arguments Unmodelled {A}.

(** Computations over [self.__detected_apps]. *)
Definition M (A : Type) : Type := list string -> outcome (A * list string).

Definition ret {A} (a : A) : M A := fun st => Ok (a, st).

Definition bind {A B} (c : M A) (f : A -> M B) : M B :=
  fun st =>
    match c st with
    | Ok (a, st') => f a st'
    | Raise e => Raise e
    | Unmodelled => Unmodelled
    end.

Definition lift {A} (o : outcome A) : M A :=
  fun st =>
    match o with
    | Ok a => Ok (a, st)
    | Raise e => Raise e
    | Unmodelled => Unmodelled
    end.

Definition raise {A} (e : exn) : M A := fun _ => Raise e.

Notation "x <- c1 ;; c2" := (bind c1 (fun x => c2))
  (at level 61, c1 at next level, right associativity).
Notation "c1 ;; c2" := (bind c1 (fun _ => c2))
  (at level 61, right associativity).

(** [for x in xs: body(x)] *)
Fixpoint for_ {A} (xs : list A) (body : A -> M unit) : M unit :=
  match xs with
  | [] => ret tt
  | x :: xs' => body x ;; for_ xs' body
  end.

(** The external capabilities: [requests.get], [BeautifulSoup(text,
    'html.parser')] and [urllib.parse.urljoin].  A request can raise, and
    so can [urljoin] (it raises [ValueError] on a reference such as
    [//[]). *)
Record env : Type := {
  requests_get : string -> outcome response;
  BeautifulSoup : string -> document;
  urljoin : string -> string -> outcome string
}.

(* ===================================================================== *)
(** ** The program *)
(* ===================================================================== *)

Definition as_list (value : jval) : list string :=
  match value with
  | VList l => l
  | VStr s => [s]
  end.

Definition is_html_document (html : document) : bool := has_html html.

(** The matcher [compile_regex] falls back to. *)
Definition fallback (fl : Re.flags) : Re.pattern :=
  match Re.compile "^$" fl with
  | Some r => r
  | None => Re.Opaque fl "^$"
  end.

(** [compile_regex]: the diagnostic printed on [stderr] is not modelled. *)
Definition compile_regex (regex_string : string) (ignorecase : bool) : Re.pattern :=
  let flags := {| Re.ignorecase := ignorecase; Re.dotall := true |} in
  match Re.compile (replace "[^]" "." regex_string) flags with
  | Some r => r
  | None => fallback flags
  end.

(** [list(map(f, l))]: the calls are made in order and the first
    exception ends the evaluation. *)
Fixpoint list_map {A B} (f : A -> outcome B) (l : list A) : outcome (list B) :=
  match l with
  | [] => Ok []
  | x :: l' =>
      match f x with
      | Ok y =>
          match list_map f l' with
          | Ok ys => Ok (y :: ys)
          | Raise e => Raise e
          | Unmodelled => Unmodelled
          end
      | Raise e => Raise e
      | Unmodelled => Unmodelled
      end
  end.

Definition get_absolute_url (w : env) (base_url : string) (urls : list string)
  : outcome (list string) :=
  list_map (fun u => urljoin w base_url u) urls.

(** [parse_app] *)
Definition parse_app (app_name : string) (a : raw_app) : app :=
  {| name := app_name;
     implies := match raw_implies a with
                | Some (VStr s) => [s]
                | Some (VList l) => l
                | None => []
                end;
     fields := raw_fields a |}.

(** [parse_apps], from the ['apps'] object of the corpus. *)
Definition parse_apps (datas : list (string * raw_app)) : list (string * app) :=
  fold_left (fun apps '(app_name, a) => dict_set app_name (parse_app app_name a) apps)
            datas [].

(** The loop of [parse_patterns] over the segments of one pattern string;
    [i] is the index of the segment at the head of [segs]. *)
Fixpoint parse_segments (i : nat) (segs : list string) (acc : attrs) : attrs :=
  match segs with
  | [] => acc
  | attr :: rest =>
      let acc' :=
        if Nat.eqb i 0 then
          dict_set "regex" (ARegex (compile_regex attr true))
                   (dict_set "string" (AStr attr) acc)
        else
          match split ":" attr with
          | k :: v :: vs => dict_set k (AStr (join ":" (v :: vs))) acc
          | _ => acc
          end in
      parse_segments (S i) rest acc'
  end.

Definition parse_pattern (pattern : string) : attrs :=
  parse_segments 0 (split "\;" pattern) [].

Definition falsy (patterns : jpat) : bool :=
  match patterns with
  | JNull => true
  | JStr s => String.eqb s ""
  | JList [] => true
  | JDict [] => true
  | _ => false
  end.

(** [parse_patterns] *)
Definition parse_patterns (patterns : jpat) : group :=
  if falsy patterns then GList []
  else
    let patterns' :=
      match patterns with
      | JStr s => [("main", VList (as_list (VStr s)))]
      | JList l => [("main", VList (as_list (VList l)))]
      | JDict d => d
      | JNull => []
      end in
    let parsed :=
      fold_left
        (fun parsed '(key, pattern_value) =>
           dict_set key (map parse_pattern (as_list pattern_value)) parsed)
        patterns' [] in
    match dict_get "main" parsed with
    | Some l => GList l
    | None => GDict parsed
    end.

(** [if not x in detected: detected.append(x)], on the list. *)
Definition add_new (detected : list string) (x : string) : list string :=
  if existsb (String.eqb x) detected then detected else detected ++ [x].

Definition append_new (x : string) : M unit :=
  fun st => Ok (tt, add_new st x).

(** [pattern['regex']], ready for a method call. *)
Definition regex_of (pattern : attrs) : outcome Re.pattern :=
  match dict_get "regex" pattern with
  | None => Raise KeyError
  | Some (AStr _) => Raise AttributeError
  | Some (ARegex r) => Ok r
  end.

(** The truth value of [r.search(value)]; [value] may be [None]. *)
Definition py_search (r : Re.pattern) (value : option string) : outcome bool :=
  match value with
  | None => Raise TypeError
  | Some s =>
      match Re.search r s with
      | Re.Matched _ => Ok true
      | Re.NoMatch => Ok false
      | Re.Unknown => Unmodelled
      end
  end.

(** [r.match(value)]: [Some groups] for a match object. *)
Definition py_match (r : Re.pattern) (value : option string) : outcome (option Re.caps) :=
  match value with
  | None => Raise TypeError
  | Some s =>
      match Re.match_ r s with
      | Re.Matched g => Ok (Some g)
      | Re.NoMatch => Ok None
      | Re.Unknown => Unmodelled
      end
  end.

(** The first half of [add_detected]: the display name. *)
Definition display_name (a : app) (pattern : attrs) (value : option string) : M string :=
  if dict_has "version" pattern then
    r <- lift (regex_of pattern) ;;
    matches <- lift (py_match r value) ;;
    match matches with
    | Some (Some version :: _) => ret (name a ++ " (" ++ version ++ ")")%string
    | _ => ret (name a)
    end
  else ret (name a).

(** [add_detected]; the parameters [type] and [key] of the method are not
    used by its body and are left out. *)
Definition add_detected (a : app) (pattern : attrs) (value : option string) : M unit :=
  app_name <- display_name a pattern value ;;
  append_new app_name ;;
  for_ (implies a) append_new.

(** [get_scripts]: [filter(bool, ...)] drops the missing and the empty
    [src]. *)
Definition get_scripts (html : document) : list string :=
  flat_map (fun src => match src with
                       | Some s => if String.eqb s "" then [] else [s]
                       | None => []
                       end)
           (script_srcs html).

Definition get_meta_tags (html : document) : list meta_tag := metas html.

(** [for pattern in patterns: if pattern['regex'].search(value):
    self.add_detected(app, pattern, kind, value)], the loop every
    [analyze_*] method ends in. *)
Definition test_patterns (a : app) (patterns : list attrs) (value : option string)
  : M unit :=
  for_ patterns (fun pattern =>
    r <- lift (regex_of pattern) ;;
    found <- lift (py_search r value) ;;
    if found then add_detected a pattern value else ret tt).

(** [for pattern in patterns] over what [parse_patterns] returned: a dict
    iterates over its keys, and [pattern['regex']] on a key raises. *)
Definition test_group (a : app) (patterns : group) (value : option string) : M unit :=
  match patterns with
  | GList l => test_patterns a l value
  | GDict d => for_ d (fun _ => raise TypeError)
  end.

(** [patterns.items()] and [patterns.keys()]: a list has neither. *)
Definition items (patterns : group) : M (list (string * list attrs)) :=
  match patterns with
  | GDict d => ret d
  | GList _ => raise AttributeError
  end.

(** [headers[name]] on the case-insensitive dict of [requests]. *)
Fixpoint header_get (k : string) (headers : list (string * string)) : option string :=
  match headers with
  | [] => None
  | (k', v) :: rest =>
      if String.eqb (lower k) (lower k') then Some v else header_get k rest
  end.

Section Pass.
Variable w : env.
Variable apps : list (string * app).

Definition request_url (url : string) : M response := lift (requests_get w url).

(** [iter_apps] *)
Definition iter_apps (key : string) : list (app * group) :=
  flat_map (fun '(_, a) =>
              match dict_get key (fields a) with
              | Some patterns => [(a, parse_patterns patterns)]
              | None => []
              end)
           apps.

Definition analyze_url (url : string) : M unit :=
  for_ (iter_apps "url") (fun '(a, patterns) =>
    test_group a patterns (Some url)).

Definition analyze_html (html : string) : M unit :=
  for_ (iter_apps "html") (fun '(a, patterns) =>
    test_group a patterns (Some html)).

Definition analyze_scripts (scripts : list string) : M unit :=
  for_ (iter_apps "script") (fun '(a, patterns) =>
    for_ scripts (fun uri =>
      test_group a patterns (Some uri))).

Definition analyze_cookies (cookies : list (string * string)) : M unit :=
  for_ (iter_apps "cookies") (fun '(a, cookies_patterns) =>
    its <- items cookies_patterns ;;
    for_ its (fun '(cookie_name, patterns) =>
      match dict_get cookie_name cookies with
      | Some v => test_patterns a patterns (Some v)
      | None => ret tt
      end)).

Definition analyze_headers (headers : list (string * string)) : M unit :=
  for_ (iter_apps "headers") (fun '(a, headers_patterns) =>
    its <- items headers_patterns ;;
    for_ its (fun '(header_name, patterns) =>
      match header_get header_name headers with
      | Some v => test_patterns a patterns (Some v)
      | None => ret tt
      end)).

Definition attr_or_empty (o : option string) : string :=
  match o with
  | Some s => s
  | None => ""
  end.

Definition analyze_meta (meta_tags : list meta_tag) : M unit :=
  for_ (iter_apps "meta") (fun '(a, meta_patterns) =>
    for_ meta_tags (fun tag =>
      let meta_name := lower (attr_or_empty (attr_name tag)) in
      let meta_property := lower (attr_or_empty (attr_property tag)) in
      let meta_content := attr_content tag in
      if negb (String.eqb meta_name "") || negb (String.eqb meta_property "") then
        its <- items meta_patterns ;;
        for_ its (fun '(meta_pattern_name, patterns) =>
          if String.eqb meta_pattern_name meta_name
             || String.eqb meta_pattern_name meta_property
          then test_patterns a patterns meta_content
          else ret tt)
      else ret tt)).

Definition js_guard (pattern_name : string) : Re.pattern :=
  compile_regex ("(window|document)\." ++ pattern_name ++ " *?=") false.

Definition analyze_js (scripts : list string) : M unit :=
  for_ scripts (fun script =>
    res <- request_url script ;;
    let js := resp_text res in
    for_ (iter_apps "js") (fun '(a, patterns) =>
      its <- items patterns ;;
      for_ its (fun '(pattern_name, pats) =>
        let global_variable := js_guard pattern_name in
        found <- lift (py_search global_variable (Some js)) ;;
        if found then test_patterns a pats (Some js) else ret tt))).

(** The body of [analyze] after the reset of [self.__detected_apps]. *)
Definition analyze_steps (r : response) : M unit :=
  let url := resp_url r in
  let html_doc := resp_text r in
  let html := BeautifulSoup w html_doc in
  (if is_html_document html then
     let scripts := get_scripts html in
     let meta_tags := get_meta_tags html in
     analyze_html html_doc ;;
     analyze_scripts scripts ;;
     urls <- lift (get_absolute_url w (resp_request_url r) scripts) ;;
     analyze_js urls ;;
     analyze_meta meta_tags
   else ret tt) ;;
  analyze_url url ;;
  analyze_headers (resp_headers r) ;;
  analyze_cookies (resp_cookies r).

(** [analyze]: the returned list is [self.__detected_apps]. *)
Definition analyze (r : response) : outcome (list string) :=
  match analyze_steps r [] with
  | Ok (_, detected) => Ok detected
  | Raise e => Raise e
  | Unmodelled => Unmodelled
  end.

Definition analyze_from_url (url : string) : outcome (list string) :=
  match requests_get w url with
  | Ok res => analyze res
  | Raise e => Raise e
  | Unmodelled => Unmodelled
  end.
End Pass.

(* ===================================================================== *)
(** ** Definitions used by the statements *)
(* ===================================================================== *)

(** Does [pattern] match [value], in the sense of the test
    [pattern['regex'].search(value)] of the program? *)
Definition matches (value : option string) (pattern : attrs) : bool :=
  match regex_of pattern with
  | Ok r =>
      match py_search r value with
      | Ok true => true
      | _ => false
      end
  | _ => false
  end.

(** The reading "registration happens on the first pattern that matches":
    the loop stops at the first match.  It follows the words of the
    specification, not the program; [test_patterns] is the program. *)
Fixpoint register_first_match (a : app) (patterns : list attrs) (value : option string)
  : M unit :=
  match patterns with
  | [] => ret tt
  | pattern :: rest =>
      r <- lift (regex_of pattern) ;;
      found <- lift (py_search r value) ;;
      if found then add_detected a pattern value
      else register_first_match a rest value
  end.

(** [n] is a display name of rule [a]: its name, or its name with a
    version suffix. *)
Definition display_of (a : app) (n : string) : Prop :=
  n = name a \/ exists version, n = (name a ++ " (" ++ version ++ ")")%string.

(** Some pattern of the list matches the value. *)
Definition hit (patterns : list attrs) (value : option string) : Prop :=
  exists pattern, In pattern patterns /\ matches value pattern = true.

(** Rule [a] is detected in the pass over response [r]: one of the seven
    analyses finds a pattern of [a] that matches one of its candidate
    values. *)
Inductive detects (w : env) (apps : list (string * app)) (r : response) (a : app)
  : Prop :=
| detects_html l :
    is_html_document (BeautifulSoup w (resp_text r)) = true ->
    In (a, GList l) (iter_apps apps "html") ->
    hit l (Some (resp_text r)) ->
    detects w apps r a
| detects_script l uri :
    is_html_document (BeautifulSoup w (resp_text r)) = true ->
    In (a, GList l) (iter_apps apps "script") ->
    In uri (get_scripts (BeautifulSoup w (resp_text r))) ->
    hit l (Some uri) ->
    detects w apps r a
| detects_js d urls script res pattern_name l :
    is_html_document (BeautifulSoup w (resp_text r)) = true ->
    get_absolute_url w (resp_request_url r)
      (get_scripts (BeautifulSoup w (resp_text r))) = Ok urls ->
    In script urls ->
    requests_get w script = Ok res ->
    In (a, GDict d) (iter_apps apps "js") ->
    In (pattern_name, l) d ->
    py_search (js_guard pattern_name) (Some (resp_text res)) = Ok true ->
    hit l (Some (resp_text res)) ->
    detects w apps r a
| detects_meta d tag k l :
    is_html_document (BeautifulSoup w (resp_text r)) = true ->
    In tag (get_meta_tags (BeautifulSoup w (resp_text r))) ->
    In (a, GDict d) (iter_apps apps "meta") ->
    In (k, l) d ->
    (k = lower (attr_or_empty (attr_name tag))
     \/ k = lower (attr_or_empty (attr_property tag))) ->
    hit l (attr_content tag) ->
    detects w apps r a
| detects_url l :
    In (a, GList l) (iter_apps apps "url") ->
    hit l (Some (resp_url r)) ->
    detects w apps r a
| detects_headers d k l v :
    In (a, GDict d) (iter_apps apps "headers") ->
    In (k, l) d ->
    header_get k (resp_headers r) = Some v ->
    hit l (Some v) ->
    detects w apps r a
| detects_cookies d k l v :
    In (a, GDict d) (iter_apps apps "cookies") ->
    In (k, l) d ->
    dict_get k (resp_cookies r) = Some v ->
    hit l (Some v) ->
    detects w apps r a.

(** [c] keeps the property [I] of the detected list. *)
Definition preserves {A} (I : list string -> Prop) (c : M A) : Prop :=
  forall st a st', I st -> c st = Ok (a, st') -> I st'.

(** Does the character occur in the string? *)
Fixpoint has_char (c : ascii) (s : string) : bool :=
  match s with
  | EmptyString => false
  | String b s' => Ascii.eqb c b || has_char c s'
  end.

(** The string of one newline. *)
Definition nl : string := String Re.newline EmptyString.

(** The flags [compile_regex] compiles with. *)
Definition flags_of (ignorecase : bool) : Re.flags :=
  {| Re.ignorecase := ignorecase; Re.dotall := true |}.

(* ===================================================================== *)
(** ** Sample corpora, documents and responses *)
(* ===================================================================== *)

Module Sample.

(** A world in which every text parses to document [d] and [fetch]
    answers the requests. *)
Definition world (d : document) (fetch : string -> outcome response) : env :=
  {| requests_get := fetch;
     BeautifulSoup := fun _ => d;
     urljoin := fun _ u => Ok u |}.

Definition unreachable : string -> outcome response :=
  fun _ => Raise RequestException.

Definition body (text : string) : response :=
  {| resp_url := "http://cdn.test/a.js";
     resp_request_url := "http://cdn.test/a.js";
     resp_text := text;
     resp_headers := [];
     resp_cookies := [] |}.

Definition serves (text : string) : string -> outcome response :=
  fun _ => Ok (body text).

Definition no_markup : document :=
  {| has_html := false; script_srcs := []; metas := [] |}.

Definition one_script : document :=
  {| has_html := true; script_srcs := [Some "a.js"]; metas := [] |}.

(** [<html><meta name="generator"></html>]: the meta element has no
    [content] attribute. *)
Definition meta_without_content : document :=
  {| has_html := true;
     script_srcs := [];
     metas := [ {| attr_name := Some "generator";
                   attr_property := None;
                   attr_content := None |} ] |}.

(** The same element with an empty [content] attribute. *)
Definition meta_with_empty_content : document :=
  {| has_html := true;
     script_srcs := [];
     metas := [ {| attr_name := Some "generator";
                   attr_property := None;
                   attr_content := Some "" |} ] |}.

Definition page (url : string) : response :=
  {| resp_url := url;
     resp_request_url := url;
     resp_text := "";
     resp_headers := [];
     resp_cookies := [] |}.

Definition rule (n : string) (imp : list string) (fs : list (string * jpat))
  : string * raw_app :=
  (n, {| raw_implies := Some (VList imp); raw_fields := fs |}).

(** A implies B, B implies C; each rule has a [url] pattern of its own. *)
Definition chain : list (string * app) :=
  parse_apps [ rule "A" ["B"] [("url", JStr "alpha")];
               rule "B" ["C"] [("url", JStr "beta")];
               rule "C" [] [("url", JStr "gamma")] ].

(** Bar implies Foo, Foo implies PHP; both match the same URLs. *)
Definition bar_foo : list (string * app) :=
  parse_apps [ rule "Bar" ["Foo"] [("url", JStr "shop")];
               rule "Foo" ["PHP"] [("url", JStr "shop")] ].

Definition foo : app := {| name := "Foo"; implies := ["PHP"]; fields := [] |}.

(** One rule, two patterns for the [Server] header; the second extracts
    a version. *)
Definition nginx_rules : list (string * app) :=
  parse_apps [ rule "nginx" []
                 [("headers",
                   JDict [("Server", VList ["nginx"; "nginx\/([0-9.]+)\;version:\1"])])] ].

Definition nginx : app := {| name := "nginx"; implies := []; fields := [] |}.

Definition nginx_patterns : list attrs :=
  [parse_pattern "nginx"; parse_pattern "nginx\/([0-9.]+)\;version:\1"].

Definition nginx_response : response :=
  {| resp_url := "http://example.com/";
     resp_request_url := "http://example.com/";
     resp_text := "";
     resp_headers := [("Server", "nginx/1.18.0")];
     resp_cookies := [] |}.

Definition wordpress : app := {| name := "WordPress"; implies := []; fields := [] |}.

(** The rule as a corpus: the pattern is tested on the markup. *)
Definition wordpress_rules : list (string * app) :=
  parse_apps [ rule "WordPress" [] [("html", JStr "WordPress ([0-9.]+)\;version:\1")] ].

(** A markup document without script and meta elements. *)
Definition bare_markup : document :=
  {| has_html := true; script_srcs := []; metas := [] |}.

Definition powered_page : response :=
  {| resp_url := "http://example.com/";
     resp_request_url := "http://example.com/";
     resp_text := "<html>Powered by WordPress 5.9</html>";
     resp_headers := [];
     resp_cookies := [] |}.

Definition wordpress_pattern : attrs :=
  parse_pattern "WordPress ([0-9.]+)\;version:\1".

(** A rule with a malformed [meta] pattern. *)
Definition broken : app := {| name := "Broken"; implies := []; fields := [] |}.

Definition site : list (string * app) :=
  parse_apps [ rule "Site" [] [("url", JStr "example")] ].

Definition generator_and_site : list (string * app) :=
  parse_apps [ rule "Gen" [] [("meta", JDict [("generator", VStr "WordPress")])];
               rule "Site" [] [("url", JStr "example")] ].

Definition jquery : list (string * app) :=
  parse_apps [ rule "jQuery" []
                 [("js", JDict [("jQuery.fn.jquery", VStr "(.*)\;version:\1")])] ].

End Sample.

(* ===================================================================== *)
(** ** Further definitions used by the statements *)
(* ===================================================================== *)

(** The two keys [parse_patterns] sets itself. *)
Definition plain_pattern (s : string) : attrs :=
  [("string", AStr s); ("regex", ARegex (compile_regex s true))].

(** The dict a loop of assignments [acc[k] = f(k, x)] builds, over the
    items [(k, x)] of [d] in order. *)
Definition fold_set {X V : Type} (f : string -> X -> V) (d : list (string * X))
  (acc : list (string * V)) : list (string * V) :=
  fold_left (fun acc '(k, x) => dict_set k (f k x) acc) d acc.

(** [c] only appends to the detected list. *)
Definition grows {A} (c : M A) : Prop :=
  forall st u st', c st = Ok (u, st') -> exists ext, st' = st ++ ext.

(** When [c] returns, the detected list satisfies [Q]. *)
Definition ensures {A} (Q : list string -> Prop) (c : M A) : Prop :=
  forall st u st', c st = Ok (u, st') -> Q st'.

(** [c] never returns: from every detected list it raises (or leaves the
    model). *)
Definition fails {A} (c : M A) : Prop :=
  forall st u st', c st <> Ok (u, st').

(** Rule [a] is in the detected list: one of its display names is, and
    so are all its implied names. *)
Definition registered (a : app) (st : list string) : Prop :=
  (exists n, In n st /\ display_of a n) /\ incl (implies a) st.

(** Is the value of a signal kind parsed to a flat list?  Everything is
    but a non-empty object without the sub-key [main]. *)
Definition parsed_flat (spec : jpat) : bool :=
  match spec with
  | JDict (kv :: d) => dict_has "main" (kv :: d)
  | _ => true
  end.

(** Further sample data. *)
Module Cases.

(** Rule A of [Sample.chain], as [parse_app] returns it. *)
Definition rule_a : app :=
  {| name := "A"; implies := ["B"]; fields := [("url", JStr "alpha")] |}.

(** A rule whose [headers] value is the empty object. *)
Definition empty_headers : list (string * app) :=
  parse_apps [ Sample.rule "Site" [] [("url", JStr "example")];
               Sample.rule "Odd" [] [("headers", JDict [])] ].

Definition odd : app :=
  {| name := "Odd"; implies := []; fields := [("headers", JDict [])] |}.

(** A rule whose [url] value is keyed. *)
Definition keyed_url : list (string * app) :=
  parse_apps [ Sample.rule "Odd" [] [("url", JDict [("path", VStr "admin")])] ].

Definition odd_url : app :=
  {| name := "Odd"; implies := []; fields := [("url", JDict [("path", VStr "admin")])] |}.

(** A rule keyed on [Generator], with an upper-case letter. *)
Definition upper_generator : list (string * app) :=
  parse_apps [ Sample.rule "Gen" [] [("meta", JDict [("Generator", VStr "WordPress")])] ].

(** A rule keyed on [generator]. *)
Definition generator : list (string * app) :=
  parse_apps [ Sample.rule "Gen" [] [("meta", JDict [("generator", VStr "WordPress")])] ].

Definition generator_tag (n : string) : meta_tag :=
  {| attr_name := Some n; attr_property := None; attr_content := Some "WordPress 5.9" |}.

Definition two_scripts : document :=
  {| has_html := true;
     script_srcs := [Some "a.js"; None; Some ""; Some "b.js"; Some "a.js"];
     metas := [] |}.

(** A rule that defines no signal kind, only its [website]. *)
Definition website_only : list (string * app) :=
  parse_apps [ Sample.rule "Site" [] [("website", JStr "http://example.com")] ].

(** The rule [nginx], implying [Unix]. *)
Definition nginx_unix : app :=
  {| name := "nginx"; implies := ["Unix"]; fields := [] |}.

End Cases.

(** The meta element with its [name] and [property] in lower case. *)
Definition lower_tag (tag : meta_tag) : meta_tag :=
  {| attr_name := option_map lower (attr_name tag);
     attr_property := option_map lower (attr_property tag);
     attr_content := attr_content tag |}.

(** [c] returns from every detected list. *)
Definition succeeds (c : M unit) : Prop :=
  forall st, exists st', c st = Ok (tt, st').

Definition is_compiled (r : Re.pattern) : bool :=
  match r with
  | Re.Compiled _ _ _ => true
  | Re.Opaque _ _ => false
  end.

(** The pattern still has its compiled matcher under ['regex'], and the
    matcher is inside the [Re] fragment. *)
Definition compiled_pattern (pattern : attrs) : bool :=
  match regex_of pattern with
  | Ok r => is_compiled r
  | _ => false
  end.

(** The shapes the analyses expect of what [parse_patterns] returns: a
    list for [url], [html] and [script], a dict for [cookies], [headers]
    and [meta], a dict whose guards compile for [js]. *)
Definition flat_ok (g : group) : bool :=
  match g with
  | GList l => forallb compiled_pattern l
  | GDict _ => false
  end.

Definition keyed_ok (g : group) : bool :=
  match g with
  | GDict d => forallb (fun '(_, l) => forallb compiled_pattern l) d
  | GList _ => false
  end.

Definition js_ok (g : group) : bool :=
  match g with
  | GDict d =>
      forallb (fun '(k, l) => is_compiled (js_guard k) && forallb compiled_pattern l) d
  | GList _ => false
  end.

Definition corpus_ok (apps : list (string * app)) : bool :=
  forallb (fun '(_, g) => flat_ok g)
          (iter_apps apps "url" ++ iter_apps apps "html" ++ iter_apps apps "script")
  && forallb (fun '(_, g) => keyed_ok g)
             (iter_apps apps "cookies" ++ iter_apps apps "headers"
              ++ iter_apps apps "meta")
  && forallb (fun '(_, g) => js_ok g) (iter_apps apps "js").

(** The seven keys a pass looks up in the rules. *)
Definition signal_kinds : list string :=
  ["html"; "script"; "js"; "meta"; "url"; "headers"; "cookies"].

(** [bool(src)] for the [src] of a script element: present and not
    empty. *)
Definition truthy (src : option string) : bool :=
  match src with
  | Some s => negb (String.eqb s "")
  | None => false
  end.

(** The meta element has a [content], or neither name nor property. *)
Definition meta_ok (tag : meta_tag) : bool :=
  match attr_content tag with
  | Some _ => true
  | None =>
      String.eqb (lower (attr_or_empty (attr_name tag))) ""
      && String.eqb (lower (attr_or_empty (attr_property tag))) ""
  end.

(* ===================================================================== *)
(** ** Lemmas on the monad *)
(* ===================================================================== *)

Section Preserves.
Variable I : list string -> Prop.

Lemma preserves_ret {A} (a : A) : preserves I (ret a).
Proof. intros st x st' HI H. inversion H; subst; assumption. Qed.

Lemma preserves_raise {A} (e : exn) : preserves I (@raise A e).
Proof. intros st x st' _ H. discriminate H. Qed.

Lemma preserves_bind {A B} (c : M A) (f : A -> M B) :
  preserves I c -> (forall a, preserves I (f a)) -> preserves I (bind c f).
Proof.
  intros Hc Hf st b st' HI H. unfold bind in H.
  destruct (c st) as [[a st1] | e | ] eqn:E; try discriminate.
  eapply Hf; [ eapply Hc; eauto | exact H ].
Qed.

Lemma preserves_lift_bind {A B} (o : outcome A) (f : A -> M B) :
  (forall a, o = Ok a -> preserves I (f a)) -> preserves I (bind (lift o) f).
Proof.
  intros Hf st b st' HI H. unfold bind, lift in H.
  destruct o as [a | e | ]; try discriminate.
  eapply Hf; eauto.
Qed.

Lemma preserves_items_bind {B} (g : group) (f : list (string * list attrs) -> M B) :
  (forall d, g = GDict d -> preserves I (f d)) -> preserves I (bind (items g) f).
Proof.
  intros Hf st b st' HI H. destruct g as [l | d]; cbn in H; try discriminate.
  eapply Hf; eauto.
Qed.

Lemma preserves_for {A} (xs : list A) (body : A -> M unit) :
  (forall x, In x xs -> preserves I (body x)) -> preserves I (for_ xs body).
Proof.
  induction xs as [| x xs IH]; intros Hb; cbn [for_].
  - apply preserves_ret.
  - apply preserves_bind.
    + apply Hb; left; reflexivity.
    + intros _. apply IH. intros y Hy. apply Hb; right; assumption.
Qed.
End Preserves.

Lemma for_app {A} (xs ys : list A) (body : A -> M unit) (st : list string) :
  for_ (xs ++ ys) body st =
  match for_ xs body st with
  | Ok (_, st') => for_ ys body st'
  | Raise e => Raise e
  | Unmodelled => Unmodelled
  end.
Proof.
  revert st. induction xs as [| x xs IH]; intros st; cbn [for_ List.app].
  - reflexivity.
  - unfold bind. destruct (body x st) as [[u st1] | e | ]; auto.
Qed.

(* ===================================================================== *)
(** ** Registration *)
(* ===================================================================== *)

Lemma existsb_eqb_In (x : string) (st : list string) :
  existsb (String.eqb x) st = true <-> In x st.
Proof.
  rewrite existsb_exists. split.
  - intros [y [Hy E]]. apply String.eqb_eq in E. subst. assumption.
  - intros H. exists x. split; [assumption | apply String.eqb_refl].
Qed.

Lemma add_new_In (st : list string) (x y : string) :
  In y (add_new st x) <-> In y st \/ y = x.
Proof.
  unfold add_new. destruct (existsb (String.eqb x) st) eqn:E.
  - apply existsb_eqb_In in E. split; [auto | intros [H | ->]; assumption].
  - rewrite in_app_iff. cbn. intuition.
Qed.

Lemma add_new_present (st : list string) (x : string) :
  In x st -> add_new st x = st.
Proof.
  intros H. unfold add_new. apply existsb_eqb_In in H. rewrite H. reflexivity.
Qed.

Lemma add_new_NoDup (st : list string) (x : string) :
  NoDup st -> NoDup (add_new st x).
Proof.
  intros H. unfold add_new. destruct (existsb (String.eqb x) st) eqn:E.
  - assumption.
  - assert (Hx : ~ In x st).
    { intros Hin. apply existsb_eqb_In in Hin. congruence. }
    clear E. induction H as [| y l Hy Hl IH]; cbn.
    + constructor; [intros [] | constructor].
    + constructor.
      * rewrite in_app_iff. cbn. intros [H1 | [H1 | []]].
        -- contradiction.
        -- subst. apply Hx. left. reflexivity.
      * apply IH. intros H1. apply Hx. right. assumption.
Qed.

Lemma fold_add_new_In (l st : list string) (y : string) :
  In y (fold_left add_new l st) <-> In y st \/ In y l.
Proof.
  revert st. induction l as [| x l IH]; intros st; cbn.
  - intuition.
  - rewrite IH, add_new_In. intuition.
Qed.

Lemma fold_add_new_NoDup (l st : list string) :
  NoDup st -> NoDup (fold_left add_new l st).
Proof.
  revert st. induction l as [| x l IH]; intros st H; cbn.
  - assumption.
  - apply IH, add_new_NoDup, H.
Qed.

Lemma fold_add_new_present (l st : list string) :
  (forall x, In x l -> In x st) -> fold_left add_new l st = st.
Proof.
  induction l as [| x l IH]; intros H; cbn.
  - reflexivity.
  - rewrite add_new_present by (apply H; left; reflexivity).
    apply IH. intros y Hy. apply H. right. assumption.
Qed.

Lemma for_append_new (l st : list string) :
  for_ l append_new st = Ok (tt, fold_left add_new l st).
Proof.
  revert st. induction l as [| x l IH]; intros st; cbn.
  - reflexivity.
  - unfold bind, append_new. apply IH.
Qed.

(** The display name is computed without touching the detected list. *)
Lemma display_name_pure a pattern value st dn st' :
  display_name a pattern value st = Ok (dn, st') ->
  st' = st /\ display_of a dn /\
  forall st2, display_name a pattern value st2 = Ok (dn, st2).
Proof.
  unfold display_name, display_of, bind, lift, ret.
  destruct (dict_has "version" pattern).
  - destruct (regex_of pattern) as [r | e | ]; try discriminate.
    destruct (py_match r value) as [[[| [version |] rest] |] | e | ];
      try discriminate; intros H; inversion H; subst;
      repeat split; eauto; right; eexists; reflexivity.
  - intros H; inversion H; subst; repeat split; eauto.
Qed.

Lemma add_detected_eq a pattern value st dn :
  display_name a pattern value st = Ok (dn, st) ->
  add_detected a pattern value st = Ok (tt, fold_left add_new (dn :: implies a) st).
Proof.
  intros H. unfold add_detected, bind. rewrite H.
  change (append_new dn st) with (Ok (tt, add_new st dn)).
  exact (for_append_new (implies a) (add_new st dn)).
Qed.

Lemma add_detected_inv a pattern value st u st' :
  add_detected a pattern value st = Ok (u, st') ->
  exists dn, display_name a pattern value st = Ok (dn, st) /\
             st' = fold_left add_new (dn :: implies a) st.
Proof.
  intros H. unfold add_detected, bind in H.
  destruct (display_name a pattern value st) as [[dn st1] | e | ] eqn:E;
    try discriminate.
  destruct (display_name_pure _ _ _ _ _ _ E) as [-> _].
  exists dn. split; [reflexivity |].
  change (append_new dn st) with (Ok (tt, add_new st dn)) in H.
  cbv beta iota in H. rewrite for_append_new in H. inversion H. reflexivity.
Qed.

Lemma add_detected_NoDup a pattern value : preserves (@NoDup string) (add_detected a pattern value).
Proof.
  intros st u st' HI H. apply add_detected_inv in H. destruct H as [dn [_ ->]].
  apply fold_add_new_NoDup, HI.
Qed.

(* ===================================================================== *)
(** ** The pass only registers detected rules *)
(* ===================================================================== *)

Section Traversal.
Variable I : list string -> Prop.
Variable w : env.
Variable apps : list (string * app).
Variable r : response.
Hypothesis add_ok :
  forall a pattern value, detects w apps r a -> preserves I (add_detected a pattern value).

Lemma test_patterns_preserves a l value :
  (hit l value -> detects w apps r a) -> preserves I (test_patterns a l value).
Proof.
  intros Hd. unfold test_patterns. apply preserves_for. intros p Hp.
  apply preserves_lift_bind. intros r0 Hr.
  apply preserves_lift_bind. intros found Hf.
  destruct found; [| apply preserves_ret].
  apply add_ok, Hd. exists p. split; [assumption |].
  unfold matches. rewrite Hr, Hf. reflexivity.
Qed.

Lemma test_group_preserves a g value :
  (forall l, g = GList l -> hit l value -> detects w apps r a) ->
  preserves I (test_group a g value).
Proof.
  intros Hd. destruct g as [l | d]; cbn.
  - apply test_patterns_preserves. apply Hd. reflexivity.
  - apply preserves_for. intros _ _. apply preserves_raise.
Qed.

Lemma analyze_url_preserves : preserves I (analyze_url apps (resp_url r)).
Proof.
  apply preserves_for. intros [a g] Hin. apply test_group_preserves.
  intros l -> Hh. eapply detects_url; eauto.
Qed.

Lemma analyze_headers_preserves : preserves I (analyze_headers apps (resp_headers r)).
Proof.
  apply preserves_for. intros [a g] Hin.
  apply preserves_items_bind. intros d ->.
  apply preserves_for. intros [k l] Hk.
  destruct (header_get k (resp_headers r)) as [v |] eqn:E; [| apply preserves_ret].
  apply test_patterns_preserves. intros Hh. eapply detects_headers; eauto.
Qed.

Lemma analyze_cookies_preserves : preserves I (analyze_cookies apps (resp_cookies r)).
Proof.
  apply preserves_for. intros [a g] Hin.
  apply preserves_items_bind. intros d ->.
  apply preserves_for. intros [k l] Hk.
  destruct (dict_get k (resp_cookies r)) as [v |] eqn:E; [| apply preserves_ret].
  apply test_patterns_preserves. intros Hh. eapply detects_cookies; eauto.
Qed.

Section Markup.
Hypothesis markup : is_html_document (BeautifulSoup w (resp_text r)) = true.

Lemma analyze_html_preserves : preserves I (analyze_html apps (resp_text r)).
Proof.
  apply preserves_for. intros [a g] Hin. apply test_group_preserves.
  intros l -> Hh. eapply detects_html; eauto.
Qed.

Lemma analyze_scripts_preserves :
  preserves I (analyze_scripts apps (get_scripts (BeautifulSoup w (resp_text r)))).
Proof.
  apply preserves_for. intros [a g] Hin.
  apply preserves_for. intros uri Hu. apply test_group_preserves.
  intros l -> Hh. eapply detects_script; eauto.
Qed.

Lemma analyze_js_preserves urls :
  get_absolute_url w (resp_request_url r)
    (get_scripts (BeautifulSoup w (resp_text r))) = Ok urls ->
  preserves I (analyze_js w apps urls).
Proof.
  intros Hurls. apply preserves_for. intros script Hs.
  apply preserves_lift_bind. intros res Hres.
  apply preserves_for. intros [a g] Hin.
  apply preserves_items_bind. intros d ->.
  apply preserves_for. intros [k l] Hk.
  apply preserves_lift_bind. intros found Hf.
  destruct found; [| apply preserves_ret].
  apply test_patterns_preserves. intros Hh. eapply detects_js; eauto.
Qed.

Lemma analyze_meta_preserves :
  preserves I (analyze_meta apps (get_meta_tags (BeautifulSoup w (resp_text r)))).
Proof.
  apply preserves_for. intros [a g] Hin.
  apply preserves_for. intros tag Ht. cbv zeta.
  destruct (negb _ || negb _); [| apply preserves_ret].
  apply preserves_items_bind. intros d ->.
  apply preserves_for. intros [k l] Hk.
  destruct (String.eqb k _ || String.eqb k _) eqn:E; [| apply preserves_ret].
  apply test_patterns_preserves. intros Hh.
  eapply detects_meta; eauto.
  apply orb_true_iff in E. destruct E as [E | E]; apply String.eqb_eq in E; auto.
Qed.
End Markup.

Lemma analyze_steps_preserves : preserves I (analyze_steps w apps r).
Proof.
  unfold analyze_steps. cbv zeta.
  apply preserves_bind.
  - destruct (is_html_document (BeautifulSoup w (resp_text r))) eqn:E.
    + apply preserves_bind; [apply analyze_html_preserves, E | intros _].
      apply preserves_bind; [apply analyze_scripts_preserves, E | intros _].
      apply preserves_lift_bind. intros urls Hurls.
      apply preserves_bind; [apply (analyze_js_preserves E urls Hurls) | intros _].
      apply analyze_meta_preserves, E.
    + apply preserves_ret.
  - intros _.
    apply preserves_bind; [apply analyze_url_preserves | intros _].
    apply preserves_bind; [apply analyze_headers_preserves | intros _].
    apply analyze_cookies_preserves.
Qed.

Lemma analyze_preserves result :
  I [] -> analyze w apps r = Ok result -> I result.
Proof.
  intros H0 H. unfold analyze in H.
  destruct (analyze_steps w apps r []) as [[u st] | e | ] eqn:E; try discriminate.
  inversion H; subst. eapply analyze_steps_preserves; eauto.
Qed.
End Traversal.

(* ===================================================================== *)
(** ** Theorems *)
(* ===================================================================== *)

(** *** Duplicate-free result (C8) *)

(** C8, as stated, fails: a registration whose display name is already in
    the result still appends the rule's implied names that are absent.
    In the pass over [bar_foo], rule Bar puts ["Bar"; "Foo"] in the result
    (Foo as its implied name); registering rule Foo then finds its display
    name present and yet changes the result, appending "PHP". *)
Lemma registering_present_name_appends_implied :
  add_detected Sample.foo (parse_pattern "shop") (Some "http://example.com/shop") []
    = Ok (tt, ["Foo"; "PHP"]) /\
  display_name Sample.foo (parse_pattern "shop") (Some "http://example.com/shop")
    ["Bar"; "Foo"] = Ok ("Foo", ["Bar"; "Foo"]) /\
  In "Foo" ["Bar"; "Foo"] /\
  add_detected Sample.foo (parse_pattern "shop") (Some "http://example.com/shop")
    ["Bar"; "Foo"] = Ok (tt, ["Bar"; "Foo"; "PHP"]) /\
  ["Bar"; "Foo"; "PHP"] <> ["Bar"; "Foo"] /\
  analyze (Sample.world Sample.no_markup Sample.unreachable) Sample.bar_foo
    (Sample.page "http://example.com/shop") = Ok ["Bar"; "Foo"; "PHP"].
Proof.
  repeat split; try (vm_compute; reflexivity).
  - right; left; reflexivity.
  - discriminate.
Qed.

(** C8 (amended): the result of a pass is duplicate-free, every
    registration keeps the detected list duplicate-free, and repeating a
    registration changes nothing.  A registration whose display name is
    already present appends no entry for it: the list grows only by the
    rule's implied names that are absent, and is unchanged when they are
    present too. *)
Theorem detected_list_duplicate_free :
  (forall w apps r result, analyze w apps r = Ok result -> NoDup result) /\
  (forall a pattern value st st',
      NoDup st ->
      add_detected a pattern value st = Ok (tt, st') ->
      NoDup st' /\
      add_detected a pattern value st' = Ok (tt, st') /\
      forall dn,
        display_name a pattern value st = Ok (dn, st) -> In dn st ->
        st' = fold_left add_new (implies a) st /\
        ((forall i, In i (implies a) -> In i st) -> st' = st)).
Proof.
  split.
  - intros w apps r result H.
    apply (analyze_preserves (@NoDup string) w apps r); [| constructor | exact H].
    intros a pattern value _. apply add_detected_NoDup.
  - intros a pattern value st st' Hst H.
    destruct (add_detected_inv _ _ _ _ _ _ H) as [dn0 [Hdn ->]].
    split; [apply fold_add_new_NoDup, Hst |]. split.
    + destruct (display_name_pure _ _ _ _ _ _ Hdn) as [_ [_ Hany]].
      rewrite (add_detected_eq _ _ _ _ _ (Hany _)).
      rewrite fold_add_new_present; [reflexivity |].
      intros x Hx. apply fold_add_new_In. right. exact Hx.
    + intros dn Hdn' Hin. rewrite Hdn in Hdn'. inversion Hdn'; subst dn0.
      cbn [fold_left]. rewrite (add_new_present _ _ Hin).
      split; [reflexivity |]. apply fold_add_new_present.
Qed.

Lemma detected_list_duplicate_free_witness :
  NoDup ["Bar"; "Foo"; "PHP"] /\
  (NoDup ["Bar"; "Foo"; "PHP"] /\
   add_detected Sample.foo (parse_pattern "shop") (Some "http://example.com/shop")
     ["Bar"; "Foo"; "PHP"] = Ok (tt, ["Bar"; "Foo"; "PHP"])).
Proof.
  split.
  - apply (proj1 detected_list_duplicate_free
             (Sample.world Sample.no_markup Sample.unreachable) Sample.bar_foo
             (Sample.page "http://example.com/shop")).
    vm_compute. reflexivity.
  - assert (H0 : NoDup ["Bar"; "Foo"]).
    { repeat constructor; cbn; intuition discriminate. }
    destruct (proj2 detected_list_duplicate_free Sample.foo (parse_pattern "shop")
                (Some "http://example.com/shop") ["Bar"; "Foo"] ["Bar"; "Foo"; "PHP"]
                H0 ltac:(vm_compute; reflexivity)) as [H1 [H2 _]].
    split; assumption.
Defined.

(** *** One level of implication (C7) *)

(** C7: a registration appends the display name and then the rule's own
    implied names, each if absent; it never looks an implied rule up.
    So every name in the result of a pass is a display name of a rule
    detected in the pass or one of that rule's implied names.  With A
    implying B and B implying C, a pass in which only A matches returns A
    and B. *)
Theorem implication_is_one_level_deep :
  (forall a pattern value st u st',
      add_detected a pattern value st = Ok (u, st') ->
      exists dn, display_of a dn /\ st' = fold_left add_new (dn :: implies a) st) /\
  (forall w apps r result,
      analyze w apps r = Ok result ->
      forall n, In n result ->
      exists a, detects w apps r a /\ (display_of a n \/ In n (implies a))) /\
  analyze (Sample.world Sample.no_markup Sample.unreachable) Sample.chain
    (Sample.page "http://example.com/alpha") = Ok ["A"; "B"].
Proof.
  split; [| split].
  - intros a pattern value st u st' H.
    destruct (add_detected_inv _ _ _ _ _ _ H) as [dn [Hdn ->]].
    exists dn. split; [| reflexivity].
    apply (display_name_pure _ _ _ _ _ _ Hdn).
  - intros w apps r result H.
    apply (analyze_preserves
             (fun st => forall n, In n st ->
                exists a, detects w apps r a /\ (display_of a n \/ In n (implies a)))
             w apps r); [| intros n [] | exact H].
    intros a pattern value Hd st u st' HI Hadd n Hn.
    destruct (add_detected_inv _ _ _ _ _ _ Hadd) as [dn [Hdn ->]].
    apply fold_add_new_In in Hn. destruct Hn as [Hn | [<- | Hn]].
    + apply HI, Hn.
    + exists a. split; [exact Hd | left].
      apply (display_name_pure _ _ _ _ _ _ Hdn).
    + exists a. split; [exact Hd | right; exact Hn].
  - vm_compute. reflexivity.
Qed.

Lemma implication_is_one_level_deep_witness :
  exists a,
    detects (Sample.world Sample.no_markup Sample.unreachable) Sample.chain
      (Sample.page "http://example.com/alpha") a /\
    (display_of a "B" \/ In "B" (implies a)).
Proof.
  apply (proj1 (proj2 implication_is_one_level_deep)
           (Sample.world Sample.no_markup Sample.unreachable) Sample.chain
           (Sample.page "http://example.com/alpha") ["A"; "B"]).
  - vm_compute. reflexivity.
  - right; left; reflexivity.
Defined.

(** *** Version suffix (C2) *)

(** C2 at a failing input: a rule is detected by [search], which finds
    the pattern anywhere in the candidate, but [add_detected] runs the
    pattern again with [match], which tries it at the start only.  When
    the search succeeds and the pattern does not match at the start, the
    version is lost and the bare name is registered: the pattern
    [WordPress ([0-9.]+)\;version:\1] on [Powered by WordPress 5.9], and
    on the markup that holds this text, registers [WordPress], not
    [WordPress (5.9)].  On [WordPress 5.9], where the match is at the
    start, it registers [WordPress (5.9)]. *)
Theorem version_rerun_is_anchored_at_the_start :
  (forall a pattern r value groups st,
      dict_has "version" pattern = true ->
      regex_of pattern = Ok r ->
      Re.search r value = Re.Matched groups ->
      Re.match_ r value = Re.NoMatch ->
      test_patterns a [pattern] (Some value) st
        = Ok (tt, fold_left add_new (implies a) (add_new st (name a)))) /\
  (py_search (compile_regex "WordPress ([0-9.]+)" true) (Some "Powered by WordPress 5.9")
     = Ok true /\
   py_match (compile_regex "WordPress ([0-9.]+)" true) (Some "Powered by WordPress 5.9")
     = Ok None /\
   test_patterns Sample.wordpress [Sample.wordpress_pattern]
     (Some "Powered by WordPress 5.9") [] = Ok (tt, ["WordPress"]) /\
   analyze (Sample.world Sample.bare_markup Sample.unreachable) Sample.wordpress_rules
     Sample.powered_page = Ok ["WordPress"]) /\
  (parse_patterns (JStr "WordPress ([0-9.]+)\;version:\1")
     = GList [Sample.wordpress_pattern] /\
   test_patterns Sample.wordpress [Sample.wordpress_pattern] (Some "WordPress 5.9") []
     = Ok (tt, ["WordPress (5.9)"])).
Proof.
  repeat match goal with |- _ /\ _ => split end; try (vm_compute; reflexivity).
  intros a pattern r value groups st Hv Hr Hs Hm.
  unfold test_patterns. cbn [for_]. unfold bind at 1 2 3, lift, py_search.
  rewrite Hr, Hs.
  assert (Hdn : display_name a pattern (Some value) st = Ok (name a, st)).
  { unfold display_name, bind, lift, py_match. rewrite Hv, Hr, Hm. reflexivity. }
  rewrite (add_detected_eq _ _ _ _ _ Hdn). reflexivity.
Qed.

Lemma version_rerun_is_anchored_at_the_start_witness :
  test_patterns Sample.wordpress [Sample.wordpress_pattern]
    (Some "Powered by WordPress 5.9") []
  = Ok (tt, fold_left add_new (implies Sample.wordpress) (add_new [] (name Sample.wordpress))).
Proof.
  apply (proj1 version_rerun_is_anchored_at_the_start
           Sample.wordpress Sample.wordpress_pattern
           (compile_regex "WordPress ([0-9.]+)" true) "Powered by WordPress 5.9"
           [Some "5.9"] []);
    vm_compute; reflexivity.
Defined.

(** *** Flat pattern groups (C9) *)

(** C9, as stated, fails at the empty pattern string: [parse_patterns]
    returns the empty list for a falsy value, and [""] is falsy while
    [[""]] is not. *)
Lemma empty_string_and_singleton_differ :
  parse_patterns (JStr "") = GList [] /\
  parse_patterns (JList [""]) = GList [parse_pattern ""] /\
  parse_patterns (JStr "") <> parse_patterns (JList [""]).
Proof.
  repeat split; try (vm_compute; reflexivity).
  vm_compute. discriminate.
Qed.

(** C9 (amended): for every non-empty pattern string [s], the bare
    string and the singleton list give the same group, the list of the
    one compiled pattern; a non-empty list gives the list of its compiled
    patterns; and a group whose only sub-key is [main] degrades to the
    list of compiled patterns of [main]. *)
Theorem flat_shapes_collapse :
  (forall s, s <> "" ->
      parse_patterns (JStr s) = parse_patterns (JList [s]) /\
      parse_patterns (JStr s) = GList [parse_pattern s]) /\
  (forall l, l <> [] -> parse_patterns (JList l) = GList (map parse_pattern l)) /\
  (forall v, parse_patterns (JDict [("main", v)]) = GList (map parse_pattern (as_list v))).
Proof.
  repeat match goal with |- _ /\ _ => split end.
  - intros s Hs. unfold parse_patterns. cbn [falsy].
    destruct (String.eqb_spec s ""); [contradiction | split; reflexivity].
  - intros l Hl. destruct l as [| x l]; [contradiction | reflexivity].
  - intros v. reflexivity.
Qed.

Lemma flat_shapes_collapse_witness :
  parse_patterns (JStr "Foo\;version:\1") = parse_patterns (JList ["Foo\;version:\1"]) /\
  parse_patterns (JList ["a"; "b"]) = GList (map parse_pattern ["a"; "b"]).
Proof.
  split.
  - apply (proj1 flat_shapes_collapse "Foo\;version:\1"). discriminate.
  - apply (proj1 (proj2 flat_shapes_collapse) ["a"; "b"]). discriminate.
Defined.

(** *** The [[^]] rewrite (C10) *)

Lemma append_empty_r (s : string) : (s ++ "")%string = s.
Proof. induction s as [| c s IH]; cbn; [| rewrite IH]; reflexivity. Qed.

Lemma append_assoc3 (s t u : string) : ((s ++ t) ++ u = s ++ (t ++ u))%string.
Proof. induction s as [| c s IH]; cbn; [| rewrite IH]; reflexivity. Qed.

Lemma split_go_nonempty (sep s cur : string) (skip : nat) :
  split_go sep s cur skip <> [].
Proof.
  revert cur skip. induction s as [| c s IH]; intros cur skip; cbn [split_go].
  - discriminate.
  - destruct skip as [| k]; [| apply IH].
    destruct (prefix sep (String c s)); [discriminate | apply IH].
Qed.

Lemma join_cons (sep x : string) (l : list string) :
  l <> [] -> join sep (x :: l) = (x ++ sep ++ join sep l)%string.
Proof. destruct l; [contradiction | reflexivity]. Qed.

(** Characters before the first [[] go to the current piece unchanged. *)
Lemma split_go_plain (s rest cur : string) :
  has_char "[" s = false ->
  split_go "[^]" (s ++ rest) cur 0 = split_go "[^]" rest (cur ++ s) 0.
Proof.
  revert cur. induction s as [| c s IH]; intros cur H.
  - cbn. rewrite append_empty_r. reflexivity.
  - cbn in H. apply orb_false_iff in H. destruct H as [Hc Hs].
    change (String c s ++ rest)%string with (String c (s ++ rest)).
    cbn [split_go prefix].
    destruct (ascii_dec "[" c) as [E | E].
    + subst c. discriminate Hc.
    + rewrite (IH _ Hs). rewrite append_assoc3. reflexivity.
Qed.

Lemma split_go_occurrence (t cur : string) :
  split_go "[^]" ("[^]" ++ t) cur 0 = cur :: split_go "[^]" t "" 0.
Proof. destruct t; reflexivity. Qed.



(** *** The fallback matcher (C3) *)

Lemma fallback_eq (fl : Re.flags) :
  fallback fl = Re.Compiled fl 0 (Re.Seq Re.Bol (Re.Seq Re.Eol Re.Eps)).
Proof. reflexivity. Qed.

(** A pattern that starts with [^] finds nothing after offset 0. *)
Lemma search_from_bol_late (fl : Re.flags) (r : Re.regex) (n pos : nat) (s : string) :
  pos <> 0 -> Re.search_from fl (Re.Seq Re.Bol r) n pos s = None.
Proof.
  revert pos. induction s as [| c s IH]; intros pos H; cbn;
    destruct (Nat.eqb_spec pos 0); try contradiction; [reflexivity |].
  apply IH. discriminate.
Qed.

Lemma py_search_fallback (fl : Re.flags) (v : string) :
  py_search (fallback fl) (Some v) = Ok (String.eqb v "" || String.eqb v nl).
Proof.
  rewrite fallback_eq. unfold py_search, Re.search.
  destruct v as [| c v]; [reflexivity |].
  cbn [Re.search_from Re.m Nat.eqb Re.accept].
  rewrite search_from_bol_late by discriminate.
  unfold nl. cbn [String.eqb orb].
  destruct v as [| d v]; [| destruct (Ascii.eqb c Re.newline); reflexivity].
  destruct (Ascii.eqb c Re.newline); reflexivity.
Qed.

(** C3, as stated, fails at the candidate of one newline: [$] also
    matches before a final newline, so the fallback [^$] finds a match in
    it and the malformed pattern [(] registers a detection. *)
Lemma malformed_pattern_matches_newline :
  Re.compile (replace "[^]" "." "(") (flags_of true) = None /\
  nl <> "" /\
  py_search (compile_regex "(" true) (Some nl) = Ok true /\
  test_patterns Sample.broken [parse_pattern "("] (Some nl) [] = Ok (tt, ["Broken"]).
Proof.
  repeat split; try (vm_compute; reflexivity). discriminate.
Qed.

(** C3 (amended): when the regex segment fails to compile,
    [compile_regex] returns the fallback matcher [^$] instead of raising;
    its search succeeds on the empty string and on the string of one
    newline only, so for every other candidate the pattern registers no
    detection. *)
Theorem malformed_pattern_falls_back :
  forall s ic,
    Re.compile (replace "[^]" "." s) (flags_of ic) = None ->
    compile_regex s ic = fallback (flags_of ic) /\
    (forall v,
        py_search (compile_regex s ic) (Some v)
          = Ok (String.eqb v "" || String.eqb v nl)) /\
    (forall a pattern v st,
        regex_of pattern = Ok (compile_regex s ic) ->
        v <> "" -> v <> nl ->
        test_patterns a [pattern] (Some v) st = Ok (tt, st)).
Proof.
  intros s ic H.
  assert (E : compile_regex s ic = fallback (flags_of ic)).
  { unfold compile_regex. fold (flags_of ic). rewrite H. reflexivity. }
  split; [exact E |]. split.
  - intros v. rewrite E. apply py_search_fallback.
  - intros a pattern v st Hr Hv Hn.
    unfold test_patterns. cbn [for_]. unfold bind, lift. rewrite Hr, E.
    rewrite py_search_fallback.
    destruct (String.eqb_spec v ""); [contradiction |].
    destruct (String.eqb_spec v nl); [contradiction |].
    reflexivity.
Qed.

Lemma malformed_pattern_falls_back_witness :
  compile_regex "(" true = fallback (flags_of true) /\
  test_patterns Sample.broken [parse_pattern "("] (Some "nginx") [] = Ok (tt, []).
Proof.
  destruct (malformed_pattern_falls_back "(" true ltac:(vm_compute; reflexivity))
    as [H1 [_ H3]].
  split; [exact H1 |].
  apply H3; [vm_compute; reflexivity | discriminate | discriminate].
Defined.

(** *** One registration per matching pattern (C6) *)

Lemma test_patterns_cons a pattern rest value r found st :
  regex_of pattern = Ok r ->
  py_search r value = Ok found ->
  test_patterns a (pattern :: rest) value st =
  if found
  then match add_detected a pattern value st with
       | Ok (_, st') => test_patterns a rest value st'
       | Raise e => Raise e
       | Unmodelled => Unmodelled
       end
  else test_patterns a rest value st.
Proof.
  intros Hr Hf. unfold test_patterns. cbn [for_]. unfold bind at 1 2 3, lift.
  rewrite Hr, Hf. destruct found; reflexivity.
Qed.

Lemma matches_found pattern value r found :
  regex_of pattern = Ok r -> py_search r value = Ok found ->
  matches value pattern = found.
Proof. intros Hr Hf. unfold matches. rewrite Hr, Hf. destruct found; reflexivity. Qed.

(** C6, as stated, fails: the loop over a rule's patterns has no exit, so
    the second pattern that matches the [Server] header registers as
    well, and one (rule, candidate) pair puts two entries in the result;
    stopping at the first match would give one. *)
Lemma second_matching_pattern_registers_too :
  filter (matches (Some "nginx/1.18.0")) Sample.nginx_patterns = Sample.nginx_patterns /\
  test_patterns Sample.nginx Sample.nginx_patterns (Some "nginx/1.18.0") []
    = Ok (tt, ["nginx"; "nginx (1.18.0)"]) /\
  register_first_match Sample.nginx Sample.nginx_patterns (Some "nginx/1.18.0") []
    = Ok (tt, ["nginx"]) /\
  analyze (Sample.world Sample.no_markup Sample.unreachable) Sample.nginx_rules
    Sample.nginx_response = Ok ["nginx"; "nginx (1.18.0)"].
Proof. repeat split; vm_compute; reflexivity. Qed.

Lemma test_patterns_filter a patterns value :
  (forall p, In p patterns ->
     exists r found, regex_of p = Ok r /\ py_search r value = Ok found) ->
  forall st,
    test_patterns a patterns value st
    = for_ (filter (matches value) patterns) (fun p => add_detected a p value) st.
Proof.
  induction patterns as [| q rest IH]; intros Hall st; [reflexivity |].
  destruct (Hall q (or_introl eq_refl)) as [r [found [Hr Hf]]].
  rewrite (test_patterns_cons _ _ _ _ _ _ _ Hr Hf).
  cbn [filter]. rewrite (matches_found _ _ _ _ Hr Hf).
  assert (IH' := IH (fun p Hp => Hall p (or_intror Hp))).
  destruct found.
  - cbn [for_]. unfold bind.
    destruct (add_detected a q value st) as [[u st1] | e | ]; auto.
  - apply IH'.
Qed.

(** C6 (amended): for every rule and every candidate value, a
    registration happens for every compiled pattern whose matcher
    succeeds against the candidate, in pattern order; when exactly one
    pattern matches, this is the single registration on the first
    match. *)
Theorem every_matching_pattern_registers :
  forall a patterns value,
    (forall p, In p patterns ->
       exists r found, regex_of p = Ok r /\ py_search r value = Ok found) ->
    (forall st,
        test_patterns a patterns value st
        = for_ (filter (matches value) patterns) (fun p => add_detected a p value) st) /\
    (forall p st,
        filter (matches value) patterns = [p] ->
        test_patterns a patterns value st = register_first_match a patterns value st).
Proof.
  intros a patterns value Hall.
  split; [apply test_patterns_filter, Hall |].
  induction patterns as [| q rest IH]; intros p st Hp; [discriminate |].
  destruct (Hall q (or_introl eq_refl)) as [r [found [Hr Hf]]].
  assert (Hrest : forall p, In p rest ->
             exists r found, regex_of p = Ok r /\ py_search r value = Ok found).
  { intros p' Hp'. apply Hall. right. exact Hp'. }
  rewrite (test_patterns_cons _ _ _ _ _ _ _ Hr Hf).
  cbn [register_first_match]. unfold bind at 1 2, lift. rewrite Hr, Hf.
  cbn [filter] in Hp. rewrite (matches_found _ _ _ _ Hr Hf) in Hp.
  destruct found.
  - injection Hp as Hq Hnil.
    destruct (add_detected a q value st) as [[[] st1] | e | ]; auto.
    rewrite (test_patterns_filter a rest value Hrest), Hnil. reflexivity.
  - apply (IH Hrest p st Hp).
Qed.

Lemma every_matching_pattern_registers_witness :
  test_patterns Sample.nginx Sample.nginx_patterns (Some "nginx/1.18.0") []
  = for_ (filter (matches (Some "nginx/1.18.0")) Sample.nginx_patterns)
      (fun p => add_detected Sample.nginx p (Some "nginx/1.18.0")) [].
Proof.
  apply (every_matching_pattern_registers Sample.nginx Sample.nginx_patterns
           (Some "nginx/1.18.0")).
  intros p Hp. destruct Hp as [<- | [<- | []]].
  - exists (compile_regex "nginx" true), true. split; vm_compute; reflexivity.
  - exists (compile_regex "nginx\/([0-9.]+)" true), true.
    split; vm_compute; reflexivity.
Defined.

(** *** A failing fetch of a script body (C1) *)

Lemma analyze_js_fetch_raises w apps pre script post e st st' :
  analyze_js w apps pre st = Ok (tt, st') ->
  requests_get w script = Raise e ->
  analyze_js w apps (pre ++ script :: post) st = Raise e.
Proof.
  intros Hpre Hfetch. unfold analyze_js in *. rewrite for_app, Hpre.
  cbn [for_]. unfold bind at 1 2, request_url, lift. rewrite Hfetch. reflexivity.
Qed.

(** C1, as stated, fails: [analyze_js] calls [request_url] with no
    handler, so the exception of one fetch leaves [analyze] and the pass
    returns no result, although the [url] analysis would have detected
    the rule, as it does when the fetch returns. *)
Lemma failed_fetch_aborts_the_pass :
  analyze (Sample.world Sample.one_script Sample.unreachable) Sample.site
    (Sample.page "http://example.com/") = Raise RequestException /\
  analyze (Sample.world Sample.one_script (Sample.serves "")) Sample.site
    (Sample.page "http://example.com/") = Ok ["Site"].
Proof. split; vm_compute; reflexivity. Qed.

(** C1 (amended): when the pass has run without exception up to the
    fetch of a discovered script body and that fetch raises, the
    exception propagates out of [analyze_js] and out of the pass: the
    remaining script bodies and the remaining signal kinds (meta, url,
    headers, cookies) are not analyzed and no result is returned. *)
Theorem failed_fetch_propagates :
  forall w apps r e pre script post st1 st2 st3,
    is_html_document (BeautifulSoup w (resp_text r)) = true ->
    get_absolute_url w (resp_request_url r)
      (get_scripts (BeautifulSoup w (resp_text r))) = Ok (pre ++ script :: post) ->
    analyze_html apps (resp_text r) [] = Ok (tt, st1) ->
    analyze_scripts apps (get_scripts (BeautifulSoup w (resp_text r))) st1
      = Ok (tt, st2) ->
    analyze_js w apps pre st2 = Ok (tt, st3) ->
    requests_get w script = Raise e ->
    analyze_js w apps (pre ++ script :: post) st2 = Raise e /\
    analyze w apps r = Raise e.
Proof.
  intros w apps r e pre script post st1 st2 st3 Hm Hurls Hhtml Hscripts Hpre Hfetch.
  assert (Hjs := analyze_js_fetch_raises _ _ _ _ post _ _ _ Hpre Hfetch).
  split; [exact Hjs |].
  unfold analyze, analyze_steps. cbv zeta. rewrite Hm, Hurls.
  unfold bind, lift. rewrite Hhtml, Hscripts, Hjs. reflexivity.
Qed.

Lemma failed_fetch_propagates_witness :
  analyze_js (Sample.world Sample.one_script Sample.unreachable) Sample.site
    ([] ++ "a.js" :: []) [] = Raise RequestException /\
  analyze (Sample.world Sample.one_script Sample.unreachable) Sample.site
    (Sample.page "http://example.com/") = Raise RequestException.
Proof.
  apply (failed_fetch_propagates
           (Sample.world Sample.one_script Sample.unreachable) Sample.site
           (Sample.page "http://example.com/") RequestException [] "a.js" [] [] [] []);
    vm_compute; reflexivity.
Defined.

(** *** The guard of the [js] analysis (C4) *)

(** C4 at a failing input: the sub-key is spliced into the guard as
    regex source, so the dots of [jQuery.fn.jquery] match any character.
    A body that assigns to [window.jQuery_fn_jquery] and holds
    [jQuery.fn.jquery] only as text passes the guard and the rule is
    registered, with the whole body as version; a body that only holds
    the text is rejected. *)
Theorem js_guard_reads_the_path_as_a_regex :
  py_search (js_guard "jQuery.fn.jquery")
    (Some "window.jQuery_fn_jquery = 'jQuery.fn.jquery'") = Ok true /\
  analyze (Sample.world Sample.one_script
             (Sample.serves "window.jQuery_fn_jquery = 'jQuery.fn.jquery'"))
    Sample.jquery (Sample.page "http://example.com/")
    = Ok ["jQuery (window.jQuery_fn_jquery = 'jQuery.fn.jquery')"] /\
  py_search (js_guard "jQuery.fn.jquery") (Some "jQuery.fn.jquery") = Ok false /\
  analyze (Sample.world Sample.one_script (Sample.serves "jQuery.fn.jquery"))
    Sample.jquery (Sample.page "http://example.com/") = Ok [].
Proof. repeat split; vm_compute; reflexivity. Qed.

(** *** A meta element without [content] (C5) *)

(** C5 at a failing input: for a meta element named [generator] that has
    no [content] attribute, [attrs.get('content')] is [None] and the
    search of the rule's pattern raises [TypeError], which leaves the
    pass; the [url] rule of the same corpus is never evaluated.  With an
    empty [content] the pass returns and detects it. *)
Theorem meta_without_content_aborts_the_pass :
  analyze (Sample.world Sample.meta_without_content Sample.unreachable)
    Sample.generator_and_site (Sample.page "http://example.com/") = Raise TypeError /\
  analyze (Sample.world Sample.meta_with_empty_content Sample.unreachable)
    Sample.generator_and_site (Sample.page "http://example.com/") = Ok ["Site"].
Proof. split; vm_compute; reflexivity. Qed.

(* ===================================================================== *)
(** ** Further properties of the program *)
(* ===================================================================== *)

(** *** Python dicts *)

Lemma dict_get_set_same {V} (k : string) (v : V) (d : list (string * V)) :
  dict_get k (dict_set k v d) = Some v.
Proof.
  induction d as [| [k' v'] d IH]; cbn.
  - rewrite String.eqb_refl. reflexivity.
  - destruct (String.eqb k k') eqn:E; cbn.
    + rewrite String.eqb_refl. reflexivity.
    + rewrite E. exact IH.
Qed.

Lemma dict_get_set_other {V} (k k' : string) (v : V) (d : list (string * V)) :
  k <> k' -> dict_get k (dict_set k' v d) = dict_get k d.
Proof.
  intros H. apply String.eqb_neq in H.
  induction d as [| [k2 v2] d IH]; cbn.
  - rewrite H. reflexivity.
  - destruct (String.eqb k' k2) eqn:E; cbn.
    + apply String.eqb_eq in E. subst k2. rewrite H. reflexivity.
    + destruct (String.eqb k k2); [reflexivity | exact IH].
Qed.

(** *** Pattern strings and their attributes *)

Lemma has_char_append (c : ascii) (s t : string) :
  has_char c (s ++ t) = has_char c s || has_char c t.
Proof.
  induction s as [| b s IH]; cbn; [reflexivity |].
  rewrite IH. apply orb_assoc.
Qed.

Lemma prefix_empty (s : string) : prefix "" s = true.
Proof. destruct s; reflexivity. Qed.

(** Characters that differ from the first character of the separator go
    to the current piece. *)
Lemma split_go_absent (c : ascii) (sep' s rest cur : string) :
  has_char c s = false ->
  split_go (String c sep') (s ++ rest) cur 0
  = split_go (String c sep') rest (cur ++ s) 0.
Proof.
  revert cur. induction s as [| b s IH]; intros cur H.
  - cbn. rewrite append_empty_r. reflexivity.
  - cbn in H. apply orb_false_iff in H. destruct H as [Hb Hs].
    change (String b s ++ rest)%string with (String b (s ++ rest)).
    cbn [split_go prefix].
    destruct (ascii_dec c b) as [E | E].
    + subst b. rewrite Ascii.eqb_refl in Hb. discriminate Hb.
    + rewrite (IH _ Hs). rewrite append_assoc3. reflexivity.
Qed.

Lemma split_absent (c : ascii) (sep' s : string) :
  has_char c s = false -> split (String c sep') s = [s].
Proof.
  intros H. unfold split.
  rewrite <- (append_empty_r s) at 1.
  rewrite (split_go_absent c sep' s "" "" H). reflexivity.
Qed.

Lemma split_escape_occurrence (t cur : string) :
  split_go "\;" ("\;" ++ t) cur 0 = cur :: split_go "\;" t "" 0.
Proof. destruct t; reflexivity. Qed.

Lemma split_colon_occurrence (t cur : string) :
  split_go ":" (":" ++ t) cur 0 = cur :: split_go ":" t "" 0.
Proof. destruct t; reflexivity. Qed.

(** [':'.join(s.split(':'))] gives [s] back. *)
Lemma join_split_colon (s cur : string) :
  join ":" (split_go ":" s cur 0) = (cur ++ s)%string.
Proof.
  revert cur. induction s as [| b s IH]; intros cur.
  - cbn. rewrite append_empty_r. reflexivity.
  - cbn [split_go prefix String.length Nat.sub].
    destruct (ascii_dec ":" b) as [E | E].
    + subst b. rewrite prefix_empty.
      rewrite join_cons by apply split_go_nonempty.
      rewrite IH. reflexivity.
    + rewrite IH, append_assoc3. reflexivity.
Qed.

(** The pieces of [regex\;attribute] when neither holds a backslash. *)
Lemma split_two_segments (re seg : string) :
  has_char "\" re = false -> has_char "\" seg = false ->
  split "\;" (re ++ "\;" ++ seg) = [re; seg].
Proof.
  intros Hre Hseg. unfold split.
  rewrite (split_go_absent _ _ _ _ _ Hre), split_escape_occurrence.
  cbn [append]. f_equal.
  apply (split_absent "\" ";" seg Hseg).
Qed.

Lemma parse_pattern_attribute (re k v : string) :
  has_char "\" re = false ->
  has_char "\" k = false ->
  has_char "\" v = false ->
  has_char ":" k = false ->
  parse_pattern (re ++ "\;" ++ k ++ ":" ++ v) = dict_set k (AStr v) (plain_pattern re).
Proof.
  intros Hre Hk Hv Hc.
  unfold parse_pattern. rewrite split_two_segments; [| exact Hre |].
  - cbn [parse_segments Nat.eqb]. unfold split.
    rewrite (split_go_absent _ _ _ _ _ Hc), split_colon_occurrence.
    cbn [append].
    destruct (split_go ":" v "" 0) as [| v1 vs] eqn:Ev.
    + exfalso. exact (split_go_nonempty _ _ _ _ Ev).
    + rewrite <- Ev, join_split_colon. reflexivity.
  - rewrite !has_char_append, Hk, Hv. reflexivity.
Qed.

(** X1: in a pattern string [regex\;key:value] the attribute value is
    everything after the first colon, later colons included, and it is
    stored under [key]: looking [key] up in the parsed pattern gives the
    value back.  An attribute named [string] or [regex] takes the place
    of the entry [parse_patterns] made itself. *)
Theorem attribute_value_follows_first_colon :
  forall re k v,
    has_char "\" re = false ->
    has_char "\" k = false ->
    has_char "\" v = false ->
    has_char ":" k = false ->
    parse_pattern (re ++ "\;" ++ k ++ ":" ++ v) = dict_set k (AStr v) (plain_pattern re) /\
    dict_get k (parse_pattern (re ++ "\;" ++ k ++ ":" ++ v)) = Some (AStr v).
Proof.
  intros re k v Hre Hk Hv Hc.
  pose proof (parse_pattern_attribute re k v Hre Hk Hv Hc) as E.
  split; [exact E |]. rewrite E. apply dict_get_set_same.
Qed.

Lemma attribute_value_follows_first_colon_witness :
  parse_pattern ("nginx" ++ "\;" ++ "cpe" ++ ":" ++ "cpe:/a:nginx:nginx")
    = dict_set "cpe" (AStr "cpe:/a:nginx:nginx") (plain_pattern "nginx") /\
  dict_get "cpe" (parse_pattern ("nginx" ++ "\;" ++ "cpe" ++ ":" ++ "cpe:/a:nginx:nginx"))
    = Some (AStr "cpe:/a:nginx:nginx").
Proof.
  apply (attribute_value_follows_first_colon "nginx" "cpe" "cpe:/a:nginx:nginx");
    reflexivity.
Defined.

(** X2: a segment after the regex that holds no colon is dropped: the
    pattern is the one of the regex alone. *)
Theorem segment_without_colon_is_dropped :
  forall re seg,
    has_char "\" re = false ->
    has_char "\" seg = false ->
    has_char ":" seg = false ->
    parse_pattern (re ++ "\;" ++ seg) = plain_pattern re /\
    parse_pattern re = plain_pattern re.
Proof.
  intros re seg Hre Hseg Hc. unfold parse_pattern. split.
  - rewrite (split_two_segments _ _ Hre Hseg).
    cbn [parse_segments Nat.eqb]. rewrite (split_absent ":" "" seg Hc). reflexivity.
  - rewrite (split_absent "\" ";" re Hre). reflexivity.
Qed.

Lemma segment_without_colon_is_dropped_witness :
  parse_pattern ("jquery" ++ "\;" ++ "confidence") = plain_pattern "jquery" /\
  parse_pattern "jquery" = plain_pattern "jquery".
Proof.
  apply (segment_without_colon_is_dropped "jquery" "confidence"); reflexivity.
Defined.

(** X3: an attribute named [regex] overwrites the compiled matcher with
    a string, so testing the pattern against any candidate raises
    [AttributeError]. *)
Theorem regex_attribute_breaks_the_pattern :
  forall re v a rest value st,
    has_char "\" re = false ->
    has_char "\" v = false ->
    regex_of (parse_pattern (re ++ "\;" ++ "regex" ++ ":" ++ v)) = Raise AttributeError /\
    test_patterns a (parse_pattern (re ++ "\;" ++ "regex" ++ ":" ++ v) :: rest) value st
      = Raise AttributeError.
Proof.
  intros re v a rest value st Hre Hv.
  pose proof (parse_pattern_attribute re "regex" v Hre eq_refl Hv eq_refl) as E.
  assert (R : regex_of (parse_pattern (re ++ "\;" ++ "regex" ++ ":" ++ v))
              = Raise AttributeError).
  { rewrite E. reflexivity. }
  split; [exact R |].
  unfold test_patterns. cbn [for_]. unfold bind at 1 2, lift. rewrite R. reflexivity.
Qed.

Lemma regex_attribute_breaks_the_pattern_witness :
  regex_of (parse_pattern ("foo" ++ "\;" ++ "regex" ++ ":" ++ "bar")) = Raise AttributeError /\
  test_patterns Sample.nginx
    (parse_pattern ("foo" ++ "\;" ++ "regex" ++ ":" ++ "bar") :: []) (Some "foo") []
    = Raise AttributeError.
Proof.
  apply (regex_attribute_breaks_the_pattern "foo" "bar" Sample.nginx [] (Some "foo") []);
    reflexivity.
Defined.

(** *** Building dicts: [parse_apps] and keyed pattern groups *)

Lemma dict_set_fresh {V} (k : string) (v : V) (d : list (string * V)) :
  dict_get k d = None -> dict_set k v d = d ++ [(k, v)].
Proof.
  induction d as [| [k' v'] d IH]; cbn; [reflexivity |].
  destruct (String.eqb k k'); [discriminate |].
  intros H. rewrite (IH H). reflexivity.
Qed.

Lemma dict_get_app_fresh {V} (k k' : string) (v : V) (d : list (string * V)) :
  k <> k' -> dict_get k d = None -> dict_get k (d ++ [(k', v)]) = None.
Proof.
  intros Hk. apply String.eqb_neq in Hk.
  induction d as [| [k2 v2] d IH]; cbn.
  - rewrite Hk. reflexivity.
  - destruct (String.eqb k k2); [discriminate | exact IH].
Qed.

Lemma dict_set_In {V} (k k' : string) (v v' : V) (d : list (string * V)) :
  In (k', v') (dict_set k v d) -> (k', v') = (k, v) \/ In (k', v') d.
Proof.
  induction d as [| [k2 v2] d IH]; cbn.
  - intros [H | []]. left. symmetry. exact H.
  - destruct (String.eqb k k2); cbn.
    + intros [H | H]; [left; symmetry; exact H | right; right; exact H].
    + intros [H | H]; [right; left; exact H |].
      destruct (IH H) as [H' | H']; [left; exact H' | right; right; exact H'].
Qed.

Lemma dict_set_keys {V} (k k' : string) (v : V) (d : list (string * V)) :
  In k' (map fst (dict_set k v d)) <-> k' = k \/ In k' (map fst d).
Proof.
  induction d as [| [k2 v2] d IH]; cbn.
  - intuition.
  - destruct (String.eqb_spec k k2); cbn.
    + subst k2. intuition.
    + rewrite IH. intuition.
Qed.

Lemma dict_set_NoDup {V} (k : string) (v : V) (d : list (string * V)) :
  NoDup (map fst d) -> NoDup (map fst (dict_set k v d)).
Proof.
  induction d as [| [k2 v2] d IH]; cbn; intros H.
  - constructor; [intros [] | constructor].
  - inversion H as [| x l Hx Hl]; subst.
    destruct (String.eqb_spec k k2); cbn.
    + subst k2. constructor; assumption.
    + constructor; [| apply IH, Hl].
      rewrite dict_set_keys. intros [E | E]; [congruence | contradiction].
Qed.

Section FoldSet.
Context {X V : Type}.
Variable f : string -> X -> V.

Lemma fold_set_unique (d : list (string * X)) (acc : list (string * V)) :
  NoDup (map fst d) ->
  (forall k, In k (map fst d) -> dict_get k acc = None) ->
  fold_set f d acc = acc ++ map (fun '(k, x) => (k, f k x)) d.
Proof.
  revert acc. induction d as [| [k x] d IH]; intros acc Hd Hacc; cbn.
  - rewrite app_nil_r. reflexivity.
  - inversion Hd as [| y l Hk Hl]; subst.
    unfold fold_set in IH. rewrite IH; [| exact Hl |].
    + rewrite dict_set_fresh by (apply Hacc; left; reflexivity).
      rewrite <- app_assoc. reflexivity.
    + intros k' Hk'. rewrite dict_set_fresh by (apply Hacc; left; reflexivity).
      apply dict_get_app_fresh.
      * intros ->. contradiction.
      * apply Hacc. right. exact Hk'.
Qed.

Lemma fold_set_NoDup (d : list (string * X)) (acc : list (string * V)) :
  NoDup (map fst acc) -> NoDup (map fst (fold_set f d acc)).
Proof.
  revert acc. induction d as [| [k x] d IH]; intros acc H; cbn.
  - exact H.
  - apply IH, dict_set_NoDup, H.
Qed.

Lemma fold_set_In (d : list (string * X)) (acc : list (string * V)) k v :
  In (k, v) (fold_set f d acc) ->
  In (k, v) acc \/ exists x, In (k, x) d /\ v = f k x.
Proof.
  revert acc. induction d as [| [k' x] d IH]; intros acc H; cbn in H.
  - left. exact H.
  - destruct (IH _ H) as [H1 | [y [Hy Hv]]].
    + destruct (dict_set_In _ _ _ _ _ H1) as [E | E].
      * inversion E; subst. right. exists x. split; [left; reflexivity | reflexivity].
      * left. exact E.
    + right. exists y. split; [right; exact Hy | exact Hv].
Qed.

Lemma fold_set_nonempty (d : list (string * X)) (acc : list (string * V)) :
  d <> [] \/ acc <> [] -> fold_set f d acc <> [].
Proof.
  revert acc. induction d as [| [k x] d IH]; intros acc H; cbn.
  - destruct H as [H | H]; [contradiction | exact H].
  - apply IH. right. destruct acc as [| [k2 v2] acc]; cbn; [discriminate |].
    destruct (String.eqb k k2); discriminate.
Qed.
End FoldSet.

Lemma dict_get_map {X V} (g : X -> V) (k : string) (d : list (string * X)) :
  dict_get k (map (fun '(k, x) => (k, g x)) d)
  = match dict_get k d with
    | Some x => Some (g x)
    | None => None
    end.
Proof.
  induction d as [| [k' x] d IH]; cbn; [reflexivity |].
  destruct (String.eqb k k'); [reflexivity | exact IH].
Qed.

Lemma parse_apps_fold (datas : list (string * raw_app)) :
  parse_apps datas = fold_set parse_app datas [].
Proof.
  unfold parse_apps, fold_set. f_equal.
Qed.

(** X4: the corpus dict [parse_apps] builds has one entry per rule name;
    the rule stored under a name carries that name and is [parse_app] of
    a definition the corpus gives for that name.  When the names of the
    corpus are distinct, the rules come in corpus order, one per
    definition. *)
Theorem parse_apps_names_rules_by_their_key :
  (forall datas, NoDup (map fst (parse_apps datas))) /\
  (forall datas n a,
      In (n, a) (parse_apps datas) ->
      name a = n /\ exists raw, In (n, raw) datas /\ a = parse_app n raw) /\
  (forall datas,
      NoDup (map fst datas) ->
      parse_apps datas = map (fun '(n, raw) => (n, parse_app n raw)) datas).
Proof.
  repeat match goal with |- _ /\ _ => split end.
  - intros datas. rewrite parse_apps_fold. apply fold_set_NoDup. constructor.
  - intros datas n a H. rewrite parse_apps_fold in H.
    destruct (fold_set_In _ _ _ _ _ H) as [[] | [raw [Hraw ->]]].
    split; [reflexivity |]. exists raw. split; [exact Hraw | reflexivity].
  - intros datas H. rewrite parse_apps_fold.
    rewrite fold_set_unique; [reflexivity | exact H | reflexivity].
Qed.

Lemma parse_apps_names_rules_by_their_key_witness :
  Sample.chain
  = map (fun '(n, raw) => (n, parse_app n raw))
      [ Sample.rule "A" ["B"] [("url", JStr "alpha")];
        Sample.rule "B" ["C"] [("url", JStr "beta")];
        Sample.rule "C" [] [("url", JStr "gamma")] ].
Proof.
  apply (proj2 (proj2 parse_apps_names_rules_by_their_key)).
  repeat constructor; cbn; intuition discriminate.
Defined.

Lemma parse_patterns_dict (d : list (string * jval)) :
  d <> [] ->
  parse_patterns (JDict d)
  = match dict_get "main" (fold_set (fun _ v => map parse_pattern (as_list v)) d []) with
    | Some l => GList l
    | None => GDict (fold_set (fun _ v => map parse_pattern (as_list v)) d [])
    end.
Proof.
  intros H. destruct d as [| kv d]; [contradiction |]. reflexivity.
Qed.

(** X5: a keyed pattern value with distinct sub-keys and no sub-key
    [main] is parsed sub-key by sub-key, in the order of the corpus: each
    sub-key keeps the compiled patterns of its own value.  When one of
    the sub-keys is [main], only the patterns of [main] are kept, as a
    flat list, and every other sub-key is dropped. *)
Theorem keyed_group_keeps_its_sub_keys :
  (forall d,
      d <> [] -> NoDup (map fst d) -> dict_get "main" d = None ->
      parse_patterns (JDict d)
      = GDict (map (fun '(k, v) => (k, map parse_pattern (as_list v))) d)) /\
  (forall d v,
      NoDup (map fst d) -> dict_get "main" d = Some v ->
      parse_patterns (JDict d) = GList (map parse_pattern (as_list v))).
Proof.
  split.
  - intros d Hne Hd Hmain. rewrite (parse_patterns_dict d Hne).
    rewrite fold_set_unique; [| exact Hd | reflexivity]. cbn [List.app].
    rewrite (dict_get_map (fun v => map parse_pattern (as_list v))), Hmain.
    reflexivity.
  - intros d v Hd Hmain.
    assert (Hne : d <> []) by (intros ->; discriminate).
    rewrite (parse_patterns_dict d Hne).
    rewrite fold_set_unique; [| exact Hd | reflexivity]. cbn [List.app].
    rewrite (dict_get_map (fun v => map parse_pattern (as_list v))), Hmain.
    reflexivity.
Qed.

Lemma keyed_group_keeps_its_sub_keys_witness :
  parse_patterns (JDict [("Server", VStr "nginx"); ("X-Powered-By", VList ["PHP"; "ASP"])])
    = GDict [("Server", [parse_pattern "nginx"]);
             ("X-Powered-By", [parse_pattern "PHP"; parse_pattern "ASP"])] /\
  parse_patterns (JDict [("Server", VStr "nginx"); ("main", VStr "x")])
    = GList [parse_pattern "x"].
Proof.
  split.
  - apply (proj1 keyed_group_keeps_its_sub_keys
             [("Server", VStr "nginx"); ("X-Powered-By", VList ["PHP"; "ASP"])]).
    + discriminate.
    + repeat constructor; cbn; intuition discriminate.
    + reflexivity.
  - apply (proj2 keyed_group_keeps_its_sub_keys
             [("Server", VStr "nginx"); ("main", VStr "x")] (VStr "x")).
    + repeat constructor; cbn; intuition discriminate.
    + reflexivity.
Defined.

(** *** What every analysis does to the detected list *)

(** An invariant of every registration is an invariant of every
    analysis, whatever its arguments. *)
Section AnyAnalysis.
Variable I : list string -> Prop.
Hypothesis add_any : forall a pattern value, preserves I (add_detected a pattern value).

Lemma test_patterns_any a l value : preserves I (test_patterns a l value).
Proof.
  unfold test_patterns. apply preserves_for. intros p _.
  apply preserves_lift_bind. intros r0 _.
  apply preserves_lift_bind. intros found _.
  destruct found; [apply add_any | apply preserves_ret].
Qed.

Lemma test_group_any a g value : preserves I (test_group a g value).
Proof.
  destruct g as [l | d]; cbn.
  - apply test_patterns_any.
  - apply preserves_for. intros _ _. apply preserves_raise.
Qed.

Lemma analyze_url_any apps url : preserves I (analyze_url apps url).
Proof. apply preserves_for. intros [a g] _. apply test_group_any. Qed.

Lemma analyze_html_any apps html : preserves I (analyze_html apps html).
Proof. apply preserves_for. intros [a g] _. apply test_group_any. Qed.

Lemma analyze_scripts_any apps scripts : preserves I (analyze_scripts apps scripts).
Proof.
  apply preserves_for. intros [a g] _.
  apply preserves_for. intros uri _. apply test_group_any.
Qed.

Lemma analyze_headers_any apps headers : preserves I (analyze_headers apps headers).
Proof.
  apply preserves_for. intros [a g] _.
  apply preserves_items_bind. intros d _.
  apply preserves_for. intros [k l] _.
  destruct (header_get k headers); [apply test_patterns_any | apply preserves_ret].
Qed.

Lemma analyze_cookies_any apps cookies : preserves I (analyze_cookies apps cookies).
Proof.
  apply preserves_for. intros [a g] _.
  apply preserves_items_bind. intros d _.
  apply preserves_for. intros [k l] _.
  destruct (dict_get k cookies); [apply test_patterns_any | apply preserves_ret].
Qed.

Lemma analyze_meta_any apps tags : preserves I (analyze_meta apps tags).
Proof.
  apply preserves_for. intros [a g] _.
  apply preserves_for. intros tag _. cbv zeta.
  destruct (negb _ || negb _); [| apply preserves_ret].
  apply preserves_items_bind. intros d _.
  apply preserves_for. intros [k l] _.
  destruct (String.eqb k _ || String.eqb k _);
    [apply test_patterns_any | apply preserves_ret].
Qed.

Lemma analyze_js_any w apps scripts : preserves I (analyze_js w apps scripts).
Proof.
  apply preserves_for. intros script _.
  apply preserves_lift_bind. intros res _.
  apply preserves_for. intros [a g] _.
  apply preserves_items_bind. intros d _.
  apply preserves_for. intros [k l] _.
  apply preserves_lift_bind. intros found _.
  destruct found; [apply test_patterns_any | apply preserves_ret].
Qed.

Lemma analyze_steps_any w apps r : preserves I (analyze_steps w apps r).
Proof.
  unfold analyze_steps. cbv zeta.
  apply preserves_bind.
  - destruct (is_html_document _).
    + apply preserves_bind; [apply analyze_html_any | intros _].
      apply preserves_bind; [apply analyze_scripts_any | intros _].
      apply preserves_lift_bind. intros urls _.
      apply preserves_bind; [apply analyze_js_any | intros _].
      apply analyze_meta_any.
    + apply preserves_ret.
  - intros _.
    apply preserves_bind; [apply analyze_url_any | intros _].
    apply preserves_bind; [apply analyze_headers_any | intros _].
    apply analyze_cookies_any.
Qed.
End AnyAnalysis.

Lemma fold_add_new_extends (l st : list string) :
  exists ext, fold_left add_new l st = st ++ ext.
Proof.
  revert st. induction l as [| x l IH]; intros st; cbn.
  - exists []. rewrite app_nil_r. reflexivity.
  - destruct (IH (add_new st x)) as [ext E]. rewrite E. unfold add_new.
    destruct (existsb (String.eqb x) st).
    + exists ext. reflexivity.
    + exists (x :: ext). rewrite <- app_assoc. reflexivity.
Qed.

Lemma add_detected_extends (st0 : list string) a pattern value :
  preserves (fun st => exists ext, st = st0 ++ ext) (add_detected a pattern value).
Proof.
  intros st u st' [ext ->] H.
  destruct (add_detected_inv _ _ _ _ _ _ H) as [dn [_ ->]].
  destruct (fold_add_new_extends (dn :: implies a) (st0 ++ ext)) as [ext' ->].
  exists (ext ++ ext'). rewrite app_assoc. reflexivity.
Qed.

Lemma grows_of_preserves {A} (c : M A) :
  (forall st0, preserves (fun st => exists ext, st = st0 ++ ext) c) -> grows c.
Proof.
  intros H st u st' E. apply (H st st u st'); [| exact E].
  exists []. rewrite app_nil_r. reflexivity.
Qed.

(** X6: every analysis only appends to the detected list: the names
    already detected stay, in their order, in front of the names an
    analysis adds.  So the names found in the markup, the script sources,
    the script bodies and the meta elements come before those found in
    the URL, the headers and the cookies. *)
Theorem analyses_only_append :
  (forall a pattern value, grows (add_detected a pattern value)) /\
  (forall apps url, grows (analyze_url apps url)) /\
  (forall apps html, grows (analyze_html apps html)) /\
  (forall apps scripts, grows (analyze_scripts apps scripts)) /\
  (forall w apps scripts, grows (analyze_js w apps scripts)) /\
  (forall apps tags, grows (analyze_meta apps tags)) /\
  (forall apps headers, grows (analyze_headers apps headers)) /\
  (forall apps cookies, grows (analyze_cookies apps cookies)) /\
  (forall w apps r, grows (analyze_steps w apps r)).
Proof.
  repeat match goal with |- _ /\ _ => split end; intros;
    apply grows_of_preserves; intros st0.
  - apply add_detected_extends.
  - apply analyze_url_any. intros. apply add_detected_extends.
  - apply analyze_html_any. intros. apply add_detected_extends.
  - apply analyze_scripts_any. intros. apply add_detected_extends.
  - apply analyze_js_any. intros. apply add_detected_extends.
  - apply analyze_meta_any. intros. apply add_detected_extends.
  - apply analyze_headers_any. intros. apply add_detected_extends.
  - apply analyze_cookies_any. intros. apply add_detected_extends.
  - apply analyze_steps_any. intros. apply add_detected_extends.
Qed.

Lemma analyses_only_append_witness :
  exists ext, ["Bar"; "Foo"; "PHP"] = ["Bar"] ++ ext.
Proof.
  apply (proj1 (proj2 analyses_only_append) Sample.bar_foo "http://example.com/shop"
           ["Bar"] tt ["Bar"; "Foo"; "PHP"]).
  vm_compute. reflexivity.
Defined.

(** *** Every detected rule is in the result *)

Section Ensures.
Variable Q : list string -> Prop.
Hypothesis Q_grows : forall st ext, Q st -> Q (st ++ ext).

Lemma ensures_bind_first {A B} (c : M A) (f : A -> M B) :
  ensures Q c -> (forall a, grows (f a)) -> ensures Q (bind c f).
Proof.
  intros Hc Hf st u st' H. unfold bind in H.
  destruct (c st) as [[a st1] | e | ] eqn:E; try discriminate.
  destruct (Hf a st1 u st' H) as [ext ->].
  apply Q_grows. exact (Hc st a st1 E).
Qed.

Lemma ensures_bind_second {A B} (c : M A) (f : A -> M B) :
  (forall a, ensures Q (f a)) -> ensures Q (bind c f).
Proof.
  intros Hf st u st' H. unfold bind in H.
  destruct (c st) as [[a st1] | e | ] eqn:E; try discriminate.
  exact (Hf a st1 u st' H).
Qed.

Lemma ensures_lift_bind {A B} (o : outcome A) (a : A) (f : A -> M B) :
  o = Ok a -> ensures Q (f a) -> ensures Q (bind (lift o) f).
Proof.
  intros -> Hf st u st' H. exact (Hf st u st' H).
Qed.

Lemma ensures_items {B} (d : list (string * list attrs))
      (f : list (string * list attrs) -> M B) :
  ensures Q (f d) -> ensures Q (bind (items (GDict d)) f).
Proof. intros Hf st u st' H. exact (Hf st u st' H). Qed.

Lemma ensures_for {A} (xs : list A) (body : A -> M unit) (x : A) :
  In x xs ->
  (forall y, grows (body y)) ->
  ensures Q (body x) ->
  ensures Q (for_ xs body).
Proof.
  intros Hin Hg Hx. induction xs as [| y xs IH]; [contradiction |].
  cbn [for_]. destruct Hin as [-> | Hin].
  - apply ensures_bind_first; [exact Hx |].
    intros _. apply grows_of_preserves. intros st0. apply preserves_for.
    intros z _ st u st' [ext ->] H.
    destruct (Hg z _ _ _ H) as [ext' ->].
    exists (ext ++ ext'). rewrite app_assoc. reflexivity.
  - apply ensures_bind_second. intros _. apply IH, Hin.
Qed.
End Ensures.

Lemma registered_grows (a : app) (st ext : list string) :
  registered a st -> registered a (st ++ ext).
Proof.
  intros [[n [Hn Hd]] Hi]. split.
  - exists n. split; [apply in_or_app; left; exact Hn | exact Hd].
  - intros i Hi'. apply in_or_app. left. apply Hi, Hi'.
Qed.

Lemma add_detected_registers a pattern value :
  ensures (registered a) (add_detected a pattern value).
Proof.
  intros st u st' H.
  destruct (add_detected_inv _ _ _ _ _ _ H) as [dn [Hdn ->]].
  split.
  - exists dn. split.
    + apply fold_add_new_In. right. left. reflexivity.
    + apply (display_name_pure _ _ _ _ _ _ Hdn).
  - intros i Hi. apply fold_add_new_In. right. right. exact Hi.
Qed.

Lemma test_patterns_grows a l value : grows (test_patterns a l value).
Proof.
  apply grows_of_preserves. intros st0. apply test_patterns_any.
  intros. apply add_detected_extends.
Qed.

Lemma test_patterns_registers a l value :
  hit l value -> ensures (registered a) (test_patterns a l value).
Proof.
  intros [p [Hp Hm]]. unfold test_patterns.
  apply (ensures_for _ (registered_grows a) _ _ p Hp).
  - intros q. apply grows_of_preserves. intros st0.
    apply preserves_lift_bind. intros r0 _.
    apply preserves_lift_bind. intros found _.
    destruct found; [apply add_detected_extends | apply preserves_ret].
  - unfold matches in Hm.
    destruct (regex_of p) as [r0 | e | ] eqn:Hr; try discriminate.
    destruct (py_search r0 value) as [[|] | e | ] eqn:Hs; try discriminate.
    apply (ensures_lift_bind _ _ r0 _ eq_refl).
    apply (ensures_lift_bind _ _ true _ Hs).
    apply add_detected_registers.
Qed.

Ltac pres_step :=
  first
    [ apply preserves_ret
    | apply preserves_raise
    | apply add_detected_extends
    | apply test_patterns_any; intros; apply add_detected_extends
    | apply test_group_any; intros; apply add_detected_extends
    | apply analyze_url_any; intros; apply add_detected_extends
    | apply analyze_html_any; intros; apply add_detected_extends
    | apply analyze_scripts_any; intros; apply add_detected_extends
    | apply analyze_js_any; intros; apply add_detected_extends
    | apply analyze_meta_any; intros; apply add_detected_extends
    | apply analyze_headers_any; intros; apply add_detected_extends
    | apply analyze_cookies_any; intros; apply add_detected_extends
    | apply preserves_for; intros ? _; cbv beta
    | apply preserves_lift_bind; intros ? _; cbv beta
    | apply preserves_items_bind; intros ? _; cbv beta
    | apply preserves_bind; [| intros ?; cbv beta]
    | match goal with
      | |- preserves _ (match ?x with _ => _ end) => destruct x
      end ].

(** Proves [grows c] for a computation built from the analyses and the
    loop and sequencing combinators. *)
Ltac grows_tac :=
  apply grows_of_preserves; intros ?; cbv beta zeta; repeat pres_step.

Section Registers.
Variable apps : list (string * app).
Variable a : app.

Let G := registered_grows a.

Lemma analyze_url_registers url l :
  In (a, GList l) (iter_apps apps "url") -> hit l (Some url) ->
  ensures (registered a) (analyze_url apps url).
Proof.
  intros Hin Hh. apply (ensures_for _ G _ _ _ Hin).
  - intros y. grows_tac.
  - apply test_patterns_registers, Hh.
Qed.

Lemma analyze_html_registers html l :
  In (a, GList l) (iter_apps apps "html") -> hit l (Some html) ->
  ensures (registered a) (analyze_html apps html).
Proof.
  intros Hin Hh. apply (ensures_for _ G _ _ _ Hin).
  - intros y. grows_tac.
  - apply test_patterns_registers, Hh.
Qed.

Lemma analyze_scripts_registers scripts uri l :
  In (a, GList l) (iter_apps apps "script") -> In uri scripts -> hit l (Some uri) ->
  ensures (registered a) (analyze_scripts apps scripts).
Proof.
  intros Hin Hu Hh. apply (ensures_for _ G _ _ _ Hin).
  - intros y. grows_tac.
  - apply (ensures_for _ G _ _ _ Hu).
    + intros y. grows_tac.
    + apply test_patterns_registers, Hh.
Qed.

Lemma analyze_headers_registers headers d k l v :
  In (a, GDict d) (iter_apps apps "headers") -> In (k, l) d ->
  header_get k headers = Some v -> hit l (Some v) ->
  ensures (registered a) (analyze_headers apps headers).
Proof.
  intros Hin Hk Hv Hh. apply (ensures_for _ G _ _ _ Hin).
  - intros y. grows_tac.
  - apply ensures_items. apply (ensures_for _ G _ _ _ Hk).
    + intros y. grows_tac.
    + cbv beta iota. rewrite Hv. apply test_patterns_registers, Hh.
Qed.

Lemma analyze_cookies_registers cookies d k l v :
  In (a, GDict d) (iter_apps apps "cookies") -> In (k, l) d ->
  dict_get k cookies = Some v -> hit l (Some v) ->
  ensures (registered a) (analyze_cookies apps cookies).
Proof.
  intros Hin Hk Hv Hh. apply (ensures_for _ G _ _ _ Hin).
  - intros y. grows_tac.
  - apply ensures_items. apply (ensures_for _ G _ _ _ Hk).
    + intros y. grows_tac.
    + cbv beta iota. rewrite Hv. apply test_patterns_registers, Hh.
Qed.

Lemma analyze_meta_registers tags tag d k l :
  In tag tags -> In (a, GDict d) (iter_apps apps "meta") -> In (k, l) d ->
  (k = lower (attr_or_empty (attr_name tag))
   \/ k = lower (attr_or_empty (attr_property tag))) ->
  k <> "" ->
  hit l (attr_content tag) ->
  ensures (registered a) (analyze_meta apps tags).
Proof.
  intros Ht Hin Hk Hkey Hne Hh. apply (ensures_for _ G _ _ _ Hin).
  - intros y. grows_tac.
  - apply (ensures_for _ G _ _ _ Ht).
    + intros y. grows_tac.
    + cbv beta zeta.
      assert (Hnamed : negb (String.eqb (lower (attr_or_empty (attr_name tag))) "")
                       || negb (String.eqb (lower (attr_or_empty (attr_property tag))) "")
                       = true \/ k = "").
      { destruct (String.eqb_spec (lower (attr_or_empty (attr_name tag))) "") as [E1 | E1];
          destruct (String.eqb_spec (lower (attr_or_empty (attr_property tag))) "")
            as [E2 | E2]; cbn; auto.
        right. destruct Hkey as [-> | ->]; assumption. }
      destruct Hnamed as [Hnamed | Hempty].
      * rewrite Hnamed. apply ensures_items. apply (ensures_for _ G _ _ _ Hk).
        -- intros y. grows_tac.
        -- cbv beta iota.
           assert (E : String.eqb k (lower (attr_or_empty (attr_name tag)))
                       || String.eqb k (lower (attr_or_empty (attr_property tag))) = true).
           { apply orb_true_iff.
             destruct Hkey as [-> | ->]; [left | right]; apply String.eqb_refl. }
           rewrite E. apply test_patterns_registers, Hh.
      * contradiction.
Qed.

Lemma analyze_js_registers w scripts script res d k l :
  In script scripts -> requests_get w script = Ok res ->
  In (a, GDict d) (iter_apps apps "js") -> In (k, l) d ->
  py_search (js_guard k) (Some (resp_text res)) = Ok true ->
  hit l (Some (resp_text res)) ->
  ensures (registered a) (analyze_js w apps scripts).
Proof.
  intros Hs Hres Hin Hk Hg Hh. apply (ensures_for _ G _ _ _ Hs).
  - intros y. grows_tac.
  - apply (ensures_lift_bind _ _ res _ Hres). cbv beta zeta.
    apply (ensures_for _ G _ _ _ Hin).
    + intros y. grows_tac.
    + apply ensures_items. apply (ensures_for _ G _ _ _ Hk).
      * intros y. grows_tac.
      * cbv beta iota zeta. apply (ensures_lift_bind _ _ true _ Hg).
        apply test_patterns_registers, Hh.
Qed.
End Registers.



(** *** Rules of the wrong shape *)

Lemma fails_bind_first {A B} (c : M A) (f : A -> M B) : fails c -> fails (bind c f).
Proof.
  intros Hc st u st' H. unfold bind in H.
  destruct (c st) as [[a st1] | e | ] eqn:E; try discriminate.
  exact (Hc _ _ _ E).
Qed.

Lemma fails_bind_second {A B} (c : M A) (f : A -> M B) :
  (forall a, fails (f a)) -> fails (bind c f).
Proof.
  intros Hf st u st' H. unfold bind in H.
  destruct (c st) as [[a st1] | e | ] eqn:E; try discriminate.
  exact (Hf _ _ _ _ H).
Qed.

Lemma fails_for {A} (xs : list A) (body : A -> M unit) (x : A) :
  In x xs -> fails (body x) -> fails (for_ xs body).
Proof.
  intros Hin Hx. induction xs as [| y xs IH]; [contradiction |].
  cbn [for_]. destruct Hin as [-> | Hin].
  - apply fails_bind_first, Hx.
  - apply fails_bind_second. intros _. apply IH, Hin.
Qed.

Lemma iter_apps_In apps key n a spec :
  In (n, a) apps -> dict_get key (fields a) = Some spec ->
  In (a, parse_patterns spec) (iter_apps apps key).
Proof.
  intros Hin Hk. unfold iter_apps. apply in_flat_map.
  exists (n, a). split; [exact Hin |]. rewrite Hk. left. reflexivity.
Qed.

Lemma analyze_fails w apps r :
  fails (analyze_steps w apps r) -> forall result, analyze w apps r <> Ok result.
Proof.
  intros Hf result H. unfold analyze in H.
  destruct (analyze_steps w apps r []) as [[u st] | e | ] eqn:E; try discriminate.
  exact (Hf _ _ _ E).
Qed.

(** A dict [parse_patterns] returns is never empty. *)
Lemma parse_patterns_dict_nonempty spec d : parse_patterns spec = GDict d -> d <> [].
Proof.
  destruct spec as [| s | l | [| kv kvs]].
  - discriminate.
  - unfold parse_patterns. cbn [falsy].
    destruct (String.eqb s ""); intros H; cbn -[parse_pattern] in H; discriminate H.
  - destruct l; intros H; cbn -[parse_pattern] in H; discriminate H.
  - discriminate.
  - rewrite parse_patterns_dict by discriminate.
    destruct (dict_get "main" _); [discriminate |].
    intros H. injection H as <-. apply fold_set_nonempty.
    right. destruct kv. discriminate.
Qed.

Lemma fold_set_get_none {X V} (f : string -> X -> V) (k : string)
      (d : list (string * X)) (acc : list (string * V)) :
  dict_get k (fold_set f d acc) = None <->
  dict_get k d = None /\ dict_get k acc = None.
Proof.
  revert acc. induction d as [| [k' x] d IH]; intros acc.
  - cbn. intuition.
  - change (fold_set f ((k', x) :: d) acc)
      with (fold_set f d (dict_set k' (f k' x) acc)).
    rewrite IH. cbn [dict_get].
    destruct (String.eqb_spec k k') as [-> | Hne].
    + rewrite dict_get_set_same. split; [intros [_ H] | intros [H _]]; discriminate H.
    + rewrite (dict_get_set_other _ _ _ _ Hne). reflexivity.
Qed.

Lemma parsed_flat_spec (spec : jpat) :
  (exists l, parse_patterns spec = GList l) <-> parsed_flat spec = true.
Proof.
  destruct spec as [| s | l | [| [k v] d]].
  - split; [reflexivity | intros _; eexists; reflexivity].
  - split; [reflexivity | intros _].
    unfold parse_patterns. cbn [falsy]. destruct (String.eqb s ""); eexists; reflexivity.
  - split; [reflexivity | intros _]. destruct l; eexists; reflexivity.
  - split; [reflexivity | intros _; eexists; reflexivity].
  - rewrite parse_patterns_dict by discriminate.
    unfold parsed_flat, dict_has.
    pose proof (fold_set_get_none (fun (_ : string) v => map parse_pattern (as_list v))
                  "main" ((k, v) :: d) []) as H.
    destruct (dict_get "main" (fold_set _ ((k, v) :: d) [])) as [l |].
    + split; [intros _ | intros _; eexists; reflexivity].
      destruct (dict_get "main" ((k, v) :: d)); [reflexivity |].
      destruct H as [_ H]. discriminate (H (conj eq_refl eq_refl)).
    + destruct H as [H _]. destruct (H eq_refl) as [H1 _]. rewrite H1.
      split; [intros [l E]; discriminate E | discriminate].
Qed.

(** X8: the [headers] and [cookies] analyses call [items()] on what
    [parse_patterns] returned.  A rule whose [headers] or [cookies] value
    is parsed to a list (it is [null], a string, a list, the empty
    object, or an object with a sub-key [main]) makes that call raise,
    for every response: no pass over such a corpus returns a result. *)
Theorem flat_headers_or_cookies_rule_fails_every_pass :
  forall w apps r n a key spec,
    key = "headers" \/ key = "cookies" ->
    In (n, a) apps ->
    dict_get key (fields a) = Some spec ->
    parsed_flat spec = true ->
    forall result, analyze w apps r <> Ok result.
Proof.
  intros w apps r n a key spec Hkey Hin Hk Hflat.
  apply parsed_flat_spec in Hflat. destruct Hflat as [l Hp].
  apply analyze_fails. unfold analyze_steps. cbv zeta.
  apply fails_bind_second. intros _.
  apply fails_bind_second. intros _.
  pose proof (iter_apps_In _ _ _ _ _ Hin Hk) as Hi. rewrite Hp in Hi.
  destruct Hkey as [-> | ->].
  - apply fails_bind_first. apply (fails_for _ _ _ Hi).
    intros st u st' H. discriminate H.
  - apply fails_bind_second. intros _. apply (fails_for _ _ _ Hi).
    intros st u st' H. discriminate H.
Qed.

Lemma flat_headers_or_cookies_rule_fails_every_pass_witness :
  analyze (Sample.world Sample.no_markup Sample.unreachable) Cases.empty_headers
    (Sample.page "http://example.com/") <> Ok ["Site"].
Proof.
  apply (flat_headers_or_cookies_rule_fails_every_pass
           (Sample.world Sample.no_markup Sample.unreachable) Cases.empty_headers
           (Sample.page "http://example.com/") "Odd" Cases.odd "headers" (JDict [])).
  - left. reflexivity.
  - right. left. reflexivity.
  - reflexivity.
  - reflexivity.
Defined.

(** X9: the [url] analysis, and the [html] analysis of a markup
    document, iterate over what [parse_patterns] returned as over a list
    of patterns.  A rule whose [url] (or [html]) value is a non-empty
    object without the sub-key [main] is parsed to a dict, the loop runs
    over its keys and indexing a key raises: no pass over such a corpus
    returns a result. *)
Theorem keyed_url_or_html_rule_fails_the_pass :
  forall w apps r n a key spec,
    key = "url" \/
    (key = "html" /\ is_html_document (BeautifulSoup w (resp_text r)) = true) ->
    In (n, a) apps ->
    dict_get key (fields a) = Some spec ->
    parsed_flat spec = false ->
    forall result, analyze w apps r <> Ok result.
Proof.
  intros w apps r n a key spec Hkey Hin Hk Hflat.
  assert (Hd : exists d, parse_patterns spec = GDict d /\ d <> []).
  { destruct (parse_patterns spec) as [l | d] eqn:E.
    - assert (H : parsed_flat spec = true) by (apply parsed_flat_spec; eauto).
      congruence.
    - exists d. split; [reflexivity | exact (parse_patterns_dict_nonempty _ _ E)]. }
  destruct Hd as [d [Hp Hne]].
  pose proof (iter_apps_In _ _ _ _ _ Hin Hk) as Hi. rewrite Hp in Hi.
  assert (Hbody : forall value, fails (test_group a (GDict d) value)).
  { intros value. destruct d as [| kv d]; [contradiction |].
    cbn. apply fails_bind_first. intros st u st' H. discriminate H. }
  apply analyze_fails. unfold analyze_steps. cbv zeta.
  destruct Hkey as [-> | [-> Hm]].
  - apply fails_bind_second. intros _. apply fails_bind_first.
    apply (fails_for _ _ _ Hi). apply Hbody.
  - rewrite Hm. apply fails_bind_first. apply fails_bind_first.
    apply (fails_for _ _ _ Hi). apply Hbody.
Qed.

Lemma keyed_url_or_html_rule_fails_the_pass_witness :
  analyze (Sample.world Sample.no_markup Sample.unreachable) Cases.keyed_url
    (Sample.page "http://example.com/admin") <> Ok ["Odd"].
Proof.
  apply (keyed_url_or_html_rule_fails_the_pass
           (Sample.world Sample.no_markup Sample.unreachable) Cases.keyed_url
           (Sample.page "http://example.com/admin") "Odd" Cases.odd_url "url"
           (JDict [("path", VStr "admin")])).
  - left. reflexivity.
  - left. reflexivity.
  - reflexivity.
  - reflexivity.
Defined.

(** *** Analyses that find nothing to test *)

Lemma for_skip {A} (xs : list A) (body : A -> M unit) (st : list string) :
  (forall x, In x xs -> body x st = Ok (tt, st)) -> for_ xs body st = Ok (tt, st).
Proof.
  induction xs as [| x xs IH]; intros H; cbn [for_]; [reflexivity |].
  unfold bind. rewrite (H x (or_introl eq_refl)).
  apply IH. intros y Hy. apply H. right. exact Hy.
Qed.

Lemma for_ext {A} (xs : list A) (f g : A -> M unit) (st : list string) :
  (forall x st', In x xs -> f x st' = g x st') -> for_ xs f st = for_ xs g st.
Proof.
  revert st. induction xs as [| x xs IH]; intros st H; cbn [for_]; [reflexivity |].
  unfold bind. rewrite (H x st (or_introl eq_refl)).
  destruct (g x st) as [[u st1] | e | ]; try reflexivity.
  apply IH. intros y st' Hy. apply H. right. exact Hy.
Qed.

Lemma for_map {A B} (h : A -> B) (xs : list A) (body : B -> M unit) (st : list string) :
  for_ (map h xs) body st = for_ xs (fun x => body (h x)) st.
Proof.
  revert st. induction xs as [| x xs IH]; intros st; cbn [for_ map]; [reflexivity |].
  unfold bind. destruct (body (h x) st) as [[u st1] | e | ]; try reflexivity.
  apply IH.
Qed.

(** X10: only the sub-keys the response has are tested.  When every
    [headers] rule is keyed and none of its sub-keys is a header of the
    response, the [headers] analysis registers nothing and raises
    nothing; the same holds for the cookies. *)
Theorem absent_headers_and_cookies_are_not_tested :
  (forall apps headers st,
      (forall a g, In (a, g) (iter_apps apps "headers") ->
         exists d, g = GDict d /\
                   forall k l, In (k, l) d -> header_get k headers = None) ->
      analyze_headers apps headers st = Ok (tt, st)) /\
  (forall apps cookies st,
      (forall a g, In (a, g) (iter_apps apps "cookies") ->
         exists d, g = GDict d /\
                   forall k l, In (k, l) d -> dict_get k cookies = None) ->
      analyze_cookies apps cookies st = Ok (tt, st)).
Proof.
  split.
  - intros apps headers st H. apply for_skip. intros [a g] Hin.
    destruct (H a g Hin) as [d [-> Hd]]. cbn [items]. unfold bind, ret.
    apply for_skip. intros [k l] Hk. rewrite (Hd k l Hk). reflexivity.
  - intros apps cookies st H. apply for_skip. intros [a g] Hin.
    destruct (H a g Hin) as [d [-> Hd]]. cbn [items]. unfold bind, ret.
    apply for_skip. intros [k l] Hk. rewrite (Hd k l Hk). reflexivity.
Qed.

Lemma absent_headers_and_cookies_are_not_tested_witness :
  analyze_headers Sample.nginx_rules [("Content-Type", "text/html")] ["Foo"]
    = Ok (tt, ["Foo"]).
Proof.
  apply (proj1 absent_headers_and_cookies_are_not_tested).
  intros a g [E | []]. injection E as <- <-.
  eexists. split; [reflexivity |].
  intros k l [E | []]. injection E as <- <-. reflexivity.
Defined.

(** *** Meta elements *)

Lemma lower_ascii_idempotent (c : ascii) : lower_ascii (lower_ascii c) = lower_ascii c.
Proof.
  destruct c as [[|] [|] [|] [|] [|] [|] [|] [|]]; vm_compute; reflexivity.
Qed.

Lemma lower_idempotent (s : string) : lower (lower s) = lower s.
Proof.
  induction s as [| c s IH]; cbn; [reflexivity |].
  rewrite lower_ascii_idempotent, IH. reflexivity.
Qed.

Lemma lower_attr (o : option string) :
  lower (attr_or_empty (option_map lower o)) = lower (attr_or_empty o).
Proof. destruct o; cbn; [apply lower_idempotent | reflexivity]. Qed.

(** X11: the name and the property of a meta element are compared in
    lower case, the sub-keys of the rules as they are written.  So the
    [meta] analysis does not depend on the case of the names of the meta
    elements, and a sub-key that holds an upper-case letter is never
    tested: a corpus whose [meta] sub-keys all hold one registers nothing
    from the meta elements. *)
Theorem meta_names_are_lowered_but_sub_keys_are_not :
  (forall apps tags st,
      analyze_meta apps (map lower_tag tags) st = analyze_meta apps tags st) /\
  (forall apps tags st,
      (forall a g, In (a, g) (iter_apps apps "meta") ->
         exists d, g = GDict d /\ forall k l, In (k, l) d -> lower k <> k) ->
      analyze_meta apps tags st = Ok (tt, st)).
Proof.
  split.
  - intros apps tags st. unfold analyze_meta.
    apply for_ext. intros [a g] st1 _. rewrite for_map.
    apply for_ext. intros tag st2 _. cbv zeta.
    unfold lower_tag. cbn [attr_name attr_property attr_content].
    rewrite !lower_attr. reflexivity.
  - intros apps tags st H. apply for_skip. intros [a g] Hin.
    destruct (H a g Hin) as [d [-> Hd]].
    apply for_skip. intros tag _. cbv zeta.
    destruct (negb _ || negb _); [| reflexivity].
    cbn [items]. unfold bind, ret.
    apply for_skip. intros [k l] Hk.
    assert (Hno : forall s, String.eqb k (lower s) = false).
    { intros s. apply String.eqb_neq. intros ->.
      apply (Hd _ _ Hk). apply lower_idempotent. }
    rewrite !Hno. reflexivity.
Qed.

Lemma meta_names_are_lowered_but_sub_keys_are_not_witness :
  analyze_meta Cases.upper_generator [Cases.generator_tag "Generator"] []
    = Ok (tt, []).
Proof.
  apply (proj2 meta_names_are_lowered_but_sub_keys_are_not).
  intros a g [E | []]. injection E as <- <-.
  eexists. split; [reflexivity |].
  intros k l [E | []]. injection E as <- <-. discriminate.
Defined.

(** *** Passes that return *)

Lemma succeeds_ret : succeeds (ret tt).
Proof. intros st. exists st. reflexivity. Qed.

Lemma succeeds_bind (c : M unit) (f : unit -> M unit) :
  succeeds c -> (forall u, succeeds (f u)) -> succeeds (bind c f).
Proof.
  intros Hc Hf st. destruct (Hc st) as [st1 E]. unfold bind. rewrite E. apply Hf.
Qed.

Lemma succeeds_lift_bind {A} (o : outcome A) (a : A) (f : A -> M unit) :
  o = Ok a -> succeeds (f a) -> succeeds (bind (lift o) f).
Proof. intros -> Hf st. apply Hf. Qed.

Lemma succeeds_items (d : list (string * list attrs))
      (f : list (string * list attrs) -> M unit) :
  succeeds (f d) -> succeeds (bind (items (GDict d)) f).
Proof. intros Hf st. apply Hf. Qed.

Lemma succeeds_for {A} (xs : list A) (body : A -> M unit) :
  (forall x, In x xs -> succeeds (body x)) -> succeeds (for_ xs body).
Proof.
  induction xs as [| x xs IH]; intros H; cbn [for_].
  - apply succeeds_ret.
  - apply succeeds_bind; [apply H; left; reflexivity | intros _].
    apply IH. intros y Hy. apply H. right. exact Hy.
Qed.

Lemma compiled_pattern_regex pattern :
  compiled_pattern pattern = true ->
  exists fl n r, regex_of pattern = Ok (Re.Compiled fl n r).
Proof.
  unfold compiled_pattern. destruct (regex_of pattern) as [[fl n r | fl src] | e | ];
    try discriminate.
  intros _. exists fl, n, r. reflexivity.
Qed.

Lemma add_detected_succeeds a pattern s :
  compiled_pattern pattern = true -> succeeds (add_detected a pattern (Some s)).
Proof.
  intros H st. destruct (compiled_pattern_regex _ H) as [fl [n [r Hr]]].
  assert (Hdn : exists dn, display_name a pattern (Some s) st = Ok (dn, st)).
  { unfold display_name, bind, lift, py_match, Re.match_. rewrite Hr.
    destruct (dict_has "version" pattern); [| eexists; reflexivity].
    destruct (Re.match_at_start fl r n s) as [[| [v |] rest] |]; eexists; reflexivity. }
  destruct Hdn as [dn Hdn]. rewrite (add_detected_eq _ _ _ _ _ Hdn). eexists. reflexivity.
Qed.

Lemma test_patterns_succeeds a l s :
  forallb compiled_pattern l = true -> succeeds (test_patterns a l (Some s)).
Proof.
  intros H. unfold test_patterns. apply succeeds_for. intros p Hp.
  assert (Hc : compiled_pattern p = true).
  { rewrite forallb_forall in H. apply H, Hp. }
  destruct (compiled_pattern_regex _ Hc) as [fl [n [r Hr]]].
  apply (succeeds_lift_bind _ _ _ Hr).
  unfold py_search, Re.search.
  destruct (Re.search_from fl r n 0 s) as [g |]; cbn [Re.answer_of].
  - apply (succeeds_lift_bind _ true _ eq_refl). apply add_detected_succeeds, Hc.
  - apply (succeeds_lift_bind _ false _ eq_refl). apply succeeds_ret.
Qed.

Lemma test_group_succeeds a g s :
  flat_ok g = true -> succeeds (test_group a g (Some s)).
Proof.
  destruct g as [l | d]; [| discriminate]. apply test_patterns_succeeds.
Qed.

Lemma keyed_ok_dict g :
  keyed_ok g = true ->
  exists d, g = GDict d /\ forall k l, In (k, l) d -> forallb compiled_pattern l = true.
Proof.
  destruct g as [l | d]; [discriminate |]. cbn. intros H. exists d.
  split; [reflexivity |]. intros k l Hk. rewrite forallb_forall in H.
  exact (H (k, l) Hk).
Qed.

Section Returns.
Variable w : env.
Variable apps : list (string * app).
Hypothesis shaped : corpus_ok apps = true.

Lemma flat_kinds_ok key a g :
  key = "url" \/ key = "html" \/ key = "script" ->
  In (a, g) (iter_apps apps key) -> flat_ok g = true.
Proof.
  intros Hkey Hin. unfold corpus_ok in shaped.
  apply andb_true_iff in shaped. destruct shaped as [H _].
  apply andb_true_iff in H. destruct H as [H _].
  rewrite forallb_forall in H. apply (H (a, g)).
  rewrite !in_app_iff. destruct Hkey as [-> | [-> | ->]]; auto.
Qed.

Lemma keyed_kinds_ok key a g :
  key = "cookies" \/ key = "headers" \/ key = "meta" ->
  In (a, g) (iter_apps apps key) -> keyed_ok g = true.
Proof.
  intros Hkey Hin. unfold corpus_ok in shaped.
  apply andb_true_iff in shaped. destruct shaped as [H _].
  apply andb_true_iff in H. destruct H as [_ H].
  rewrite forallb_forall in H. apply (H (a, g)).
  rewrite !in_app_iff. destruct Hkey as [-> | [-> | ->]]; auto.
Qed.

Lemma analyze_url_succeeds url : succeeds (analyze_url apps url).
Proof.
  apply succeeds_for. intros [a g] Hin. apply test_group_succeeds.
  apply (flat_kinds_ok "url" a g); auto.
Qed.

Lemma analyze_html_succeeds html : succeeds (analyze_html apps html).
Proof.
  apply succeeds_for. intros [a g] Hin. apply test_group_succeeds.
  apply (flat_kinds_ok "html" a g); auto.
Qed.

Lemma analyze_scripts_succeeds scripts : succeeds (analyze_scripts apps scripts).
Proof.
  apply succeeds_for. intros [a g] Hin. apply succeeds_for. intros uri _.
  apply test_group_succeeds. apply (flat_kinds_ok "script" a g); auto.
Qed.

Lemma analyze_headers_succeeds headers : succeeds (analyze_headers apps headers).
Proof.
  apply succeeds_for. intros [a g] Hin.
  destruct (keyed_ok_dict g (keyed_kinds_ok "headers" a g ltac:(auto) Hin))
    as [d [-> Hd]].
  apply succeeds_items. apply succeeds_for. intros [k l] Hk.
  destruct (header_get k headers);
    [apply test_patterns_succeeds, (Hd k l Hk) | apply succeeds_ret].
Qed.

Lemma analyze_cookies_succeeds cookies : succeeds (analyze_cookies apps cookies).
Proof.
  apply succeeds_for. intros [a g] Hin.
  destruct (keyed_ok_dict g (keyed_kinds_ok "cookies" a g ltac:(auto) Hin))
    as [d [-> Hd]].
  apply succeeds_items. apply succeeds_for. intros [k l] Hk.
  destruct (dict_get k cookies);
    [apply test_patterns_succeeds, (Hd k l Hk) | apply succeeds_ret].
Qed.

Lemma analyze_meta_succeeds tags :
  forallb meta_ok tags = true -> succeeds (analyze_meta apps tags).
Proof.
  intros Htags. apply succeeds_for. intros [a g] Hin.
  destruct (keyed_ok_dict g (keyed_kinds_ok "meta" a g ltac:(auto) Hin))
    as [d [-> Hd]].
  apply succeeds_for. intros tag Ht. cbv zeta.
  assert (Hok : meta_ok tag = true).
  { rewrite forallb_forall in Htags. apply Htags, Ht. }
  unfold meta_ok in Hok.
  destruct (attr_content tag) as [content |].
  - destruct (negb _ || negb _); [| apply succeeds_ret].
    apply succeeds_items. apply succeeds_for. intros [k l] Hk.
    destruct (String.eqb k _ || String.eqb k _);
      [apply test_patterns_succeeds, (Hd k l Hk) | apply succeeds_ret].
  - apply andb_true_iff in Hok. destruct Hok as [E1 E2]. rewrite E1, E2.
    apply succeeds_ret.
Qed.

Lemma analyze_js_succeeds scripts :
  (forall s, In s scripts -> exists res, requests_get w s = Ok res) ->
  succeeds (analyze_js w apps scripts).
Proof.
  intros Hfetch. apply succeeds_for. intros script Hs.
  destruct (Hfetch script Hs) as [res Hres].
  apply (succeeds_lift_bind _ _ _ Hres). cbv zeta.
  apply succeeds_for. intros [a g] Hin.
  assert (Hg : js_ok g = true).
  { unfold corpus_ok in shaped. apply andb_true_iff in shaped.
    destruct shaped as [_ H]. rewrite forallb_forall in H. exact (H (a, g) Hin). }
  destruct g as [l | d]; [discriminate |]. cbn in Hg.
  apply succeeds_items. apply succeeds_for. intros [k l] Hk.
  rewrite forallb_forall in Hg. pose proof (Hg (k, l) Hk) as Hkl. cbn in Hkl.
  apply andb_true_iff in Hkl. destruct Hkl as [Hguard Hl].
  unfold py_search, Re.search.
  destruct (js_guard k) as [fl n r | fl src]; [| discriminate].
  destruct (Re.search_from fl r n 0 (resp_text res)) as [c |]; cbn [Re.answer_of].
  - apply (succeeds_lift_bind _ true _ eq_refl). apply test_patterns_succeeds, Hl.
  - apply (succeeds_lift_bind _ false _ eq_refl). apply succeeds_ret.
Qed.
End Returns.



(** *** Passes over a body that is not markup *)

(** X13: when the document has no [html] element, the pass reads the URL,
    the headers and the cookies of the response and nothing else: it
    makes no request and looks at no script and no meta element.  Two
    such passes over responses with the same URL, headers and cookies
    give the same outcome, whatever the body and whatever the world. *)
Theorem non_markup_pass_reads_url_headers_cookies :
  forall w1 w2 apps r1 r2,
    is_html_document (BeautifulSoup w1 (resp_text r1)) = false ->
    is_html_document (BeautifulSoup w2 (resp_text r2)) = false ->
    resp_url r1 = resp_url r2 ->
    resp_headers r1 = resp_headers r2 ->
    resp_cookies r1 = resp_cookies r2 ->
    analyze w1 apps r1 = analyze w2 apps r2.
Proof.
  intros w1 w2 apps r1 r2 H1 H2 Hu Hh Hc.
  unfold analyze, analyze_steps. cbv zeta. rewrite H1, H2, Hu, Hh, Hc. reflexivity.
Qed.

Lemma non_markup_pass_reads_url_headers_cookies_witness :
  analyze (Sample.world Sample.no_markup Sample.unreachable) Sample.nginx_rules
    Sample.nginx_response
  = analyze (Sample.world Sample.no_markup (Sample.serves "x")) Sample.nginx_rules
      {| resp_url := "http://example.com/";
         resp_request_url := "http://example.com/start";
         resp_text := "{}";
         resp_headers := [("Server", "nginx/1.18.0")];
         resp_cookies := [] |}.
Proof.
  apply non_markup_pass_reads_url_headers_cookies; reflexivity.
Defined.

(** *** Script sources *)

(** X14: [get_scripts] returns the [src] attributes that are present and
    not empty, and only those, in document order with their repetitions:
    what it returns is the sequence of the [src] attributes from which
    the missing and the empty ones are struck out.  So a script element
    without [src], or with an empty one, is never fetched, and a document
    all of whose script elements have a non-empty [src] gives them
    all. *)
Theorem get_scripts_keeps_the_non_empty_sources :
  (forall html,
      map Some (get_scripts html) = filter truthy (script_srcs html)) /\
  (forall html s,
      In s (get_scripts html) <-> In (Some s) (script_srcs html) /\ s <> "") /\
  (forall flag tags l,
      (forall s, In s l -> s <> "") ->
      get_scripts {| has_html := flag; script_srcs := map Some l; metas := tags |} = l).
Proof.
  repeat match goal with |- _ /\ _ => split end.
  - intros html. unfold get_scripts.
    induction (script_srcs html) as [| [x |] l IH]; [reflexivity | |].
    + cbn [flat_map filter truthy]. destruct (String.eqb x ""); cbn [negb List.app map].
      * exact IH.
      * f_equal. exact IH.
    + cbn [flat_map filter truthy List.app]. exact IH.
  - intros html s. unfold get_scripts. rewrite in_flat_map. split.
    + intros [[x |] [Hin Hs]]; [| destruct Hs].
      destruct (String.eqb_spec x ""); [destruct Hs |].
      destruct Hs as [<- | []]. split; assumption.
    + intros [Hin Hne]. exists (Some s). split; [exact Hin |].
      destruct (String.eqb_spec s ""); [contradiction | left; reflexivity].
  - intros flag tags l H. unfold get_scripts. cbn [script_srcs].
    induction l as [| x l IH]; [reflexivity |]. cbn [map flat_map].
    destruct (String.eqb_spec x "") as [E | E].
    + exfalso. exact (H x (or_introl eq_refl) E).
    + cbn [List.app]. f_equal. apply IH. intros s Hs. apply H. right. exact Hs.
Qed.

Lemma get_scripts_keeps_the_non_empty_sources_witness :
  get_scripts {| has_html := true; script_srcs := map Some ["a.js"; "b.js"; "a.js"];
                 metas := [] |} = ["a.js"; "b.js"; "a.js"].
Proof.
  apply (proj2 (proj2 get_scripts_keeps_the_non_empty_sources)).
  intros s [<- | [<- | [<- | []]]]; discriminate.
Defined.

(** *** A corpus without rules for any signal *)



(** *** The order of a fresh detection *)

Lemma fold_add_new_fresh (l st : list string) :
  NoDup l -> (forall x, In x l -> ~ In x st) -> fold_left add_new l st = st ++ l.
Proof.
  revert st. induction l as [| x l IH]; intros st Hl Hst; cbn [fold_left].
  - rewrite app_nil_r. reflexivity.
  - inversion Hl as [| y l' Hx Hl']; subst.
    assert (E : add_new st x = st ++ [x]).
    { unfold add_new. destruct (existsb (String.eqb x) st) eqn:Ex; [| reflexivity].
      apply existsb_eqb_In in Ex. exfalso. exact (Hst x (or_introl eq_refl) Ex). }
    rewrite E, IH; [rewrite <- app_assoc; reflexivity | exact Hl' |].
    intros y Hy Hin. apply in_app_iff in Hin. destruct Hin as [Hin | [<- | []]].
    + exact (Hst y (or_intror Hy) Hin).
    + contradiction.
Qed.

(** X17: a registration none of whose names is detected yet appends the
    display name and then the implied names, in the order the rule lists
    them (the display name and the implied names being distinct). *)
Theorem fresh_detection_appends_in_order :
  forall a pattern value st dn,
    display_name a pattern value st = Ok (dn, st) ->
    NoDup (dn :: implies a) ->
    (forall x, In x (dn :: implies a) -> ~ In x st) ->
    add_detected a pattern value st = Ok (tt, st ++ dn :: implies a).
Proof.
  intros a pattern value st dn Hdn Hnd Hfresh.
  rewrite (add_detected_eq _ _ _ _ _ Hdn).
  rewrite (fold_add_new_fresh _ _ Hnd Hfresh). reflexivity.
Qed.

Lemma fresh_detection_appends_in_order_witness :
  add_detected Cases.nginx_unix (parse_pattern "nginx\/([0-9.]+)\;version:\1")
    (Some "nginx/1.18.0") [] = Ok (tt, [] ++ ["nginx (1.18.0)"; "Unix"]).
Proof.
  apply (fresh_detection_appends_in_order Cases.nginx_unix
           (parse_pattern "nginx\/([0-9.]+)\;version:\1") (Some "nginx/1.18.0") []
           "nginx (1.18.0)").
  - vm_compute. reflexivity.
  - repeat constructor; cbn; intuition discriminate.
  - intros x _ [].
Defined.

(** *** The guard of the [js] analysis *)

(** X18: the patterns of a [js] sub-key are tested against a script body
    only when the guard of the sub-key finds a match in that body.  When
    every fetch returns and no guard of any [js] rule matches any body,
    the [js] analysis registers nothing, whatever the patterns are. *)
Theorem failed_guard_skips_the_patterns :
  forall w apps scripts st,
    (forall s, In s scripts -> exists res, requests_get w s = Ok res) ->
    (forall s res a g,
        In s scripts -> requests_get w s = Ok res ->
        In (a, g) (iter_apps apps "js") ->
        exists d, g = GDict d /\
                  forall k l, In (k, l) d ->
                    py_search (js_guard k) (Some (resp_text res)) = Ok false) ->
    analyze_js w apps scripts st = Ok (tt, st).
Proof.
  intros w apps scripts st Hfetch Hguard.
  apply for_skip. intros s Hs. destruct (Hfetch s Hs) as [res Hres].
  unfold bind at 1. unfold request_url, lift. rewrite Hres. cbv zeta.
  apply for_skip. intros [a g] Hin.
  destruct (Hguard s res a g Hs Hres Hin) as [d [-> Hd]].
  cbn [items]. unfold bind at 1. unfold ret.
  apply for_skip. intros [k l] Hk.
  unfold bind, lift. rewrite (Hd k l Hk). reflexivity.
Qed.

Lemma failed_guard_skips_the_patterns_witness :
  analyze_js (Sample.world Sample.one_script (Sample.serves "jQuery.fn.jquery"))
    Sample.jquery ["a.js"] [] = Ok (tt, []).
Proof.
  apply failed_guard_skips_the_patterns.
  - intros s _. eexists. reflexivity.
  - intros s res a g _ Hres [E | []]. injection E as <- <-.
    injection Hres as <-.
    eexists. split; [reflexivity |].
    intros k l [E | []]. injection E as <- <-. vm_compute. reflexivity.
Defined.
